(** * ftx-api-ws: the [Connection] class of the websocket client

    A shallow embedding of the [Connection] class: the fields of
    the object and the part of the JavaScript run time its methods rely on
    (promises, the microtask queue, timers) are one record; every method is
    a function on that record.  An [async] method returns an [outcome]: it
    ran to its end, it threw (its promise is rejected), or it stopped at an
    [await] and left its continuation in the record.

    What the class takes from libraries ([JSON.parse], [JSON.stringify],
    the HMAC of [crypto]) is the interface [Externals]; every theorem holds
    for every implementation of it. *)

From Stdlib Require Import ZArith String Ascii List Bool Lia DecimalString.
Import ListNotations.

Open Scope string_scope.
Open Scope Z_scope.

#[local] Set Warnings "-register-all".

(** ** JavaScript values *)

(** The values that reach the class: what [JSON.parse] builds, and
    [undefined].  Numbers are the integers (timestamps and ids; the
    decimal numeral is their [ToString] below 10^21).  An object is its
    list of own properties, looked up from the head. *)
Inductive value : Type :=
| VUndefined
| VNull
| VBool (b : bool)
| VNum (n : Z)
| VStr (s : string)
| VArr (items : list value)
| VObj (props : list (string * value)).

(** [!v] is [negb (truthy v)]. *)
Definition truthy (v : value) : bool :=
  match v with
  | VUndefined | VNull => false
  | VBool b => b
  | VNum n => negb (n =? 0)
  | VStr s => negb (s =? "")%string
  | VArr _ | VObj _ => true
  end.

(** [a === b].  Two arrays or two objects are equal when they are the same
    object; the ones compared here come from different places (a frame
    just parsed, an argument of an earlier call), so never are. *)
Definition strict_eq (a b : value) : bool :=
  match a, b with
  | VUndefined, VUndefined => true
  | VNull, VNull => true
  | VBool x, VBool y => Bool.eqb x y
  | VNum x, VNum y => x =? y
  | VStr x, VStr y => (x =? y)%string
  | _, _ => false
  end.

Fixpoint lookup (k : string) (props : list (string * value)) : option value :=
  match props with
  | [] => None
  | (k', v) :: rest => if (k =? k')%string then Some v else lookup k rest
  end.

(** [v.name] for a name that no prototype defines ([type], [market],
    [channel], [data]): a TypeError ([None]) on [undefined] and [null],
    the own property of an object, [undefined] everywhere else. *)
Definition get (v : value) (name : string) : option value :=
  match v with
  | VUndefined | VNull => None
  | VObj props => Some (match lookup name props with Some x => x | None => VUndefined end)
  | _ => Some VUndefined
  end.

Definition decimal (n : Z) : string := NilZero.string_of_int (Z.to_int n).

(** [parts.join(",")] once every item is a string ([None]: one threw). *)
Fixpoint join (parts : list (option string)) : option string :=
  match parts with
  | [] => Some ""
  | [p] => p
  | p :: rest =>
      match p, join rest with
      | Some s, Some t => Some (s ++ "," ++ t)
      | _, _ => None
      end
  end.

(** The string a value turns into under [+] with a string.  An array is
    its items joined by commas ([null] and [undefined] items are empty);
    an object is [[object Object]], unless it has an own [toString]
    property, which is then not callable: a TypeError ([None]). *)
Fixpoint ToString (v : value) : option string :=
  match v with
  | VUndefined => Some "undefined"
  | VNull => Some "null"
  | VBool true => Some "true"
  | VBool false => Some "false"
  | VNum n => Some (decimal n)
  | VStr s => Some s
  | VArr items =>
      join ((fix each (l : list value) : list (option string) :=
               match l with
               | [] => []
               | x :: rest =>
                   match x with
                   | VUndefined | VNull => Some ""
                   | _ => ToString x
                   end :: each rest
               end) items)
  | VObj props =>
      match lookup "toString" props with
      | Some _ => None
      | None => Some "[object Object]"
      end
  end.

(** ** Constants of the module *)

Definition quote : string := String (ascii_of_nat 34) EmptyString.

(** [const PONG = '{"type": "pong"}'] *)
Definition PONG : string :=
  "{" ++ quote ++ "type" ++ quote ++ ": " ++ quote ++ "pong" ++ quote ++ "}".

Definition STALE_TIMEOUT : Z := 2000.

Definition DEFAULT_ENDPOINT : string := "ftx.com/ws/".

(** ** [toId] *)

(** [toId(market, channel)]: [channel] itself when [market] is falsy, else
    [market + '::' + channel] ([None]: the concatenation threw). *)
Definition toId (market channel : value) : option value :=
  if negb (truthy market) then Some channel
  else match ToString market, ToString channel with
       | Some m, Some c => Some (VStr (m ++ "::" ++ c))
       | _, _ => None
       end.

(** ** Timestamps *)

(** [this.pingAt] and [this.pongAt]: [undefined] until the first tick or
    pong ([Unset]), [false] after a reconnect ([Reset]), else a reading of
    [+new Date]. *)
Inductive stamp : Type :=
| Unset
| Reset
| At (t : Z).

(** [ToNumber]; [None] is NaN. *)
Definition to_number (s : stamp) : option Z :=
  match s with
  | Unset => None
  | Reset => Some 0
  | At t => Some t
  end.

Definition stamp_truthy (s : stamp) : bool :=
  match s with
  | At t => negb (t =? 0)
  | _ => false
  end.

(** [a - b], [a > b] and [a < b] on numbers that may be NaN. *)
Definition js_sub (a b : option Z) : option Z :=
  match a, b with
  | Some x, Some y => Some (x - y)
  | _, _ => None
  end.

Definition js_gt (a b : option Z) : bool :=
  match a, b with
  | Some x, Some y => x >? y
  | _, _ => false
  end.

Definition js_lt (a b : option Z) : bool :=
  match a, b with
  | Some x, Some y => x <? y
  | _, _ => false
  end.

Definition stamp_value (s : stamp) : value :=
  match s with
  | Unset => VUndefined
  | Reset => VBool false
  | At t => VNum t
  end.

(** ** The object and its run time *)

(** What a method can throw: [new Error(message)], a TypeError of the
    run time, or the error that [emit] of EventEmitter throws for an
    [error] event nobody listens to, with the event's argument as its
    [context]. *)
Inductive error : Type :=
| Error (message : string)
| TypeError
| ERR_UNHANDLED_ERROR (context : value).

(** One entry of [this.subscriptions].  [done] is a promise, [doneHook]
    the function that resolves one; both are [false] ([None]) at first. *)
Record Sub : Type := mkSub {
  sub_id : value;
  sub_channel : value;
  sub_market : value;
  sub_doneHook : option nat;
  sub_done : option nat
}.

Inductive stream : Type := Out | Err.

(** What the object does to the outside.  The [new Date] that leads every
    console line is left out. *)
Inductive effect : Type :=
| NewWebSocket (url : string)
| WsSend (socket : nat) (frame : string)
| WsTerminate (socket : nat)
| SetInterval (handle : nat)
| ClearInterval (handle : option nat)
| Emit (name data : value)
| Console (s : stream) (message : string) (args : list value)
| Unhandled (e : error).

(** The rest of an [async] method after one of its [await]s. *)
Inductive cont : Type :=
| KSendMessage (payload : value)
| KSubscribe (id channel market : value)
| KConnect (awaited_by : option cont)
| KAuthenticate
| KReconnectWaited (hook : nat)
| KReconnectConnected (hook : nat).

(** The fields of a [Connection], then the run time: promises are
    numbered in the order of their creation.  The class extends
    EventEmitter: [listeners] is what it inherits, the names for which
    [on] registered a listener. *)
Record Connection : Type := mkConnection {
  key : value;
  secret : value;
  subaccount : value;
  WSendpoint : string;
  connected : bool;
  isReady : nat;   (* the promise; [this.isReadyHook] resolves it *)
  authenticated : bool;
  reconnecting : bool;
  afterReconnect : option nat;   (* [None]: still [undefined] *)
  subscriptions : list Sub;
  lastMessageAt : Z;
  pingAt : stamp;
  pongAt : stamp;
  ws : nat;   (* [this.ws] is the [ws]-th socket opened (0: none yet) *)
  heartbeat : option nat;   (* the handle of the last [setInterval] *)
  promises : nat;   (* promises created so far *)
  settled : list nat;   (* the promises resolved so far *)
  reactions : list (nat * cont);   (* who awaits which pending promise, oldest first *)
  opening : list (nat * cont);   (* who awaits the open of which socket *)
  microtasks : list cont;   (* the job queue, next job first *)
  timers : list cont;   (* who awaits a [wait(500)], oldest first *)
  effects : list effect;   (* what was done to the outside, oldest first *)
  listeners : list string   (* the event names that have a listener *)
}.

(** [this.field = x], one definition for each field that is assigned. *)
Definition set_connected (x : bool) (st : Connection) : Connection :=
  {| key := key st; secret := secret st; subaccount := subaccount st;
     WSendpoint := WSendpoint st; connected := x; isReady := isReady st;
     authenticated := authenticated st; reconnecting := reconnecting st;
     afterReconnect := afterReconnect st; subscriptions := subscriptions st;
     lastMessageAt := lastMessageAt st; pingAt := pingAt st; pongAt := pongAt
     st; ws := ws st; heartbeat := heartbeat st; promises := promises st;
     settled := settled st; reactions := reactions st; opening := opening st;
     microtasks := microtasks st; timers := timers st; effects := effects st;
     listeners := listeners st |}.

Definition set_isReady (x : nat) (st : Connection) : Connection :=
  {| key := key st; secret := secret st; subaccount := subaccount st;
     WSendpoint := WSendpoint st; connected := connected st; isReady := x;
     authenticated := authenticated st; reconnecting := reconnecting st;
     afterReconnect := afterReconnect st; subscriptions := subscriptions st;
     lastMessageAt := lastMessageAt st; pingAt := pingAt st; pongAt := pongAt
     st; ws := ws st; heartbeat := heartbeat st; promises := promises st;
     settled := settled st; reactions := reactions st; opening := opening st;
     microtasks := microtasks st; timers := timers st; effects := effects st;
     listeners := listeners st |}.

Definition set_authenticated (x : bool) (st : Connection) : Connection :=
  {| key := key st; secret := secret st; subaccount := subaccount st;
     WSendpoint := WSendpoint st; connected := connected st; isReady := isReady
     st; authenticated := x; reconnecting := reconnecting st; afterReconnect :=
     afterReconnect st; subscriptions := subscriptions st; lastMessageAt :=
     lastMessageAt st; pingAt := pingAt st; pongAt := pongAt st; ws := ws st;
     heartbeat := heartbeat st; promises := promises st; settled := settled st;
     reactions := reactions st; opening := opening st; microtasks := microtasks
     st; timers := timers st; effects := effects st;
     listeners := listeners st |}.

Definition set_reconnecting (x : bool) (st : Connection) : Connection :=
  {| key := key st; secret := secret st; subaccount := subaccount st;
     WSendpoint := WSendpoint st; connected := connected st; isReady := isReady
     st; authenticated := authenticated st; reconnecting := x; afterReconnect
     := afterReconnect st; subscriptions := subscriptions st; lastMessageAt :=
     lastMessageAt st; pingAt := pingAt st; pongAt := pongAt st; ws := ws st;
     heartbeat := heartbeat st; promises := promises st; settled := settled st;
     reactions := reactions st; opening := opening st; microtasks := microtasks
     st; timers := timers st; effects := effects st;
     listeners := listeners st |}.

Definition set_afterReconnect (x : option nat) (st : Connection) : Connection :=
  {| key := key st; secret := secret st; subaccount := subaccount st;
     WSendpoint := WSendpoint st; connected := connected st; isReady := isReady
     st; authenticated := authenticated st; reconnecting := reconnecting st;
     afterReconnect := x; subscriptions := subscriptions st; lastMessageAt :=
     lastMessageAt st; pingAt := pingAt st; pongAt := pongAt st; ws := ws st;
     heartbeat := heartbeat st; promises := promises st; settled := settled st;
     reactions := reactions st; opening := opening st; microtasks := microtasks
     st; timers := timers st; effects := effects st;
     listeners := listeners st |}.

Definition set_subscriptions (x : list Sub) (st : Connection) : Connection :=
  {| key := key st; secret := secret st; subaccount := subaccount st;
     WSendpoint := WSendpoint st; connected := connected st; isReady := isReady
     st; authenticated := authenticated st; reconnecting := reconnecting st;
     afterReconnect := afterReconnect st; subscriptions := x; lastMessageAt :=
     lastMessageAt st; pingAt := pingAt st; pongAt := pongAt st; ws := ws st;
     heartbeat := heartbeat st; promises := promises st; settled := settled st;
     reactions := reactions st; opening := opening st; microtasks := microtasks
     st; timers := timers st; effects := effects st;
     listeners := listeners st |}.

Definition set_lastMessageAt (x : Z) (st : Connection) : Connection :=
  {| key := key st; secret := secret st; subaccount := subaccount st;
     WSendpoint := WSendpoint st; connected := connected st; isReady := isReady
     st; authenticated := authenticated st; reconnecting := reconnecting st;
     afterReconnect := afterReconnect st; subscriptions := subscriptions st;
     lastMessageAt := x; pingAt := pingAt st; pongAt := pongAt st; ws := ws st;
     heartbeat := heartbeat st; promises := promises st; settled := settled st;
     reactions := reactions st; opening := opening st; microtasks := microtasks
     st; timers := timers st; effects := effects st;
     listeners := listeners st |}.

Definition set_pingAt (x : stamp) (st : Connection) : Connection :=
  {| key := key st; secret := secret st; subaccount := subaccount st;
     WSendpoint := WSendpoint st; connected := connected st; isReady := isReady
     st; authenticated := authenticated st; reconnecting := reconnecting st;
     afterReconnect := afterReconnect st; subscriptions := subscriptions st;
     lastMessageAt := lastMessageAt st; pingAt := x; pongAt := pongAt st; ws :=
     ws st; heartbeat := heartbeat st; promises := promises st; settled :=
     settled st; reactions := reactions st; opening := opening st; microtasks
     := microtasks st; timers := timers st; effects := effects st;
     listeners := listeners st |}.

Definition set_pongAt (x : stamp) (st : Connection) : Connection :=
  {| key := key st; secret := secret st; subaccount := subaccount st;
     WSendpoint := WSendpoint st; connected := connected st; isReady := isReady
     st; authenticated := authenticated st; reconnecting := reconnecting st;
     afterReconnect := afterReconnect st; subscriptions := subscriptions st;
     lastMessageAt := lastMessageAt st; pingAt := pingAt st; pongAt := x; ws :=
     ws st; heartbeat := heartbeat st; promises := promises st; settled :=
     settled st; reactions := reactions st; opening := opening st; microtasks
     := microtasks st; timers := timers st; effects := effects st;
     listeners := listeners st |}.

Definition set_ws (x : nat) (st : Connection) : Connection :=
  {| key := key st; secret := secret st; subaccount := subaccount st;
     WSendpoint := WSendpoint st; connected := connected st; isReady := isReady
     st; authenticated := authenticated st; reconnecting := reconnecting st;
     afterReconnect := afterReconnect st; subscriptions := subscriptions st;
     lastMessageAt := lastMessageAt st; pingAt := pingAt st; pongAt := pongAt
     st; ws := x; heartbeat := heartbeat st; promises := promises st; settled
     := settled st; reactions := reactions st; opening := opening st;
     microtasks := microtasks st; timers := timers st; effects := effects st;
     listeners := listeners st |}.

Definition set_heartbeat (x : option nat) (st : Connection) : Connection :=
  {| key := key st; secret := secret st; subaccount := subaccount st;
     WSendpoint := WSendpoint st; connected := connected st; isReady := isReady
     st; authenticated := authenticated st; reconnecting := reconnecting st;
     afterReconnect := afterReconnect st; subscriptions := subscriptions st;
     lastMessageAt := lastMessageAt st; pingAt := pingAt st; pongAt := pongAt
     st; ws := ws st; heartbeat := x; promises := promises st; settled :=
     settled st; reactions := reactions st; opening := opening st; microtasks
     := microtasks st; timers := timers st; effects := effects st;
     listeners := listeners st |}.

Definition set_promises (x : nat) (st : Connection) : Connection :=
  {| key := key st; secret := secret st; subaccount := subaccount st;
     WSendpoint := WSendpoint st; connected := connected st; isReady := isReady
     st; authenticated := authenticated st; reconnecting := reconnecting st;
     afterReconnect := afterReconnect st; subscriptions := subscriptions st;
     lastMessageAt := lastMessageAt st; pingAt := pingAt st; pongAt := pongAt
     st; ws := ws st; heartbeat := heartbeat st; promises := x; settled :=
     settled st; reactions := reactions st; opening := opening st; microtasks
     := microtasks st; timers := timers st; effects := effects st;
     listeners := listeners st |}.

Definition set_settled (x : list nat) (st : Connection) : Connection :=
  {| key := key st; secret := secret st; subaccount := subaccount st;
     WSendpoint := WSendpoint st; connected := connected st; isReady := isReady
     st; authenticated := authenticated st; reconnecting := reconnecting st;
     afterReconnect := afterReconnect st; subscriptions := subscriptions st;
     lastMessageAt := lastMessageAt st; pingAt := pingAt st; pongAt := pongAt
     st; ws := ws st; heartbeat := heartbeat st; promises := promises st;
     settled := x; reactions := reactions st; opening := opening st; microtasks
     := microtasks st; timers := timers st; effects := effects st;
     listeners := listeners st |}.

Definition set_reactions (x : list (nat * cont)) (st : Connection) : Connection :=
  {| key := key st; secret := secret st; subaccount := subaccount st;
     WSendpoint := WSendpoint st; connected := connected st; isReady := isReady
     st; authenticated := authenticated st; reconnecting := reconnecting st;
     afterReconnect := afterReconnect st; subscriptions := subscriptions st;
     lastMessageAt := lastMessageAt st; pingAt := pingAt st; pongAt := pongAt
     st; ws := ws st; heartbeat := heartbeat st; promises := promises st;
     settled := settled st; reactions := x; opening := opening st; microtasks
     := microtasks st; timers := timers st; effects := effects st;
     listeners := listeners st |}.

Definition set_opening (x : list (nat * cont)) (st : Connection) : Connection :=
  {| key := key st; secret := secret st; subaccount := subaccount st;
     WSendpoint := WSendpoint st; connected := connected st; isReady := isReady
     st; authenticated := authenticated st; reconnecting := reconnecting st;
     afterReconnect := afterReconnect st; subscriptions := subscriptions st;
     lastMessageAt := lastMessageAt st; pingAt := pingAt st; pongAt := pongAt
     st; ws := ws st; heartbeat := heartbeat st; promises := promises st;
     settled := settled st; reactions := reactions st; opening := x; microtasks
     := microtasks st; timers := timers st; effects := effects st;
     listeners := listeners st |}.

Definition set_microtasks (x : list cont) (st : Connection) : Connection :=
  {| key := key st; secret := secret st; subaccount := subaccount st;
     WSendpoint := WSendpoint st; connected := connected st; isReady := isReady
     st; authenticated := authenticated st; reconnecting := reconnecting st;
     afterReconnect := afterReconnect st; subscriptions := subscriptions st;
     lastMessageAt := lastMessageAt st; pingAt := pingAt st; pongAt := pongAt
     st; ws := ws st; heartbeat := heartbeat st; promises := promises st;
     settled := settled st; reactions := reactions st; opening := opening st;
     microtasks := x; timers := timers st; effects := effects st;
     listeners := listeners st |}.

Definition set_timers (x : list cont) (st : Connection) : Connection :=
  {| key := key st; secret := secret st; subaccount := subaccount st;
     WSendpoint := WSendpoint st; connected := connected st; isReady := isReady
     st; authenticated := authenticated st; reconnecting := reconnecting st;
     afterReconnect := afterReconnect st; subscriptions := subscriptions st;
     lastMessageAt := lastMessageAt st; pingAt := pingAt st; pongAt := pongAt
     st; ws := ws st; heartbeat := heartbeat st; promises := promises st;
     settled := settled st; reactions := reactions st; opening := opening st;
     microtasks := microtasks st; timers := x; effects := effects st;
     listeners := listeners st |}.

Definition set_effects (x : list effect) (st : Connection) : Connection :=
  {| key := key st; secret := secret st; subaccount := subaccount st;
     WSendpoint := WSendpoint st; connected := connected st; isReady := isReady
     st; authenticated := authenticated st; reconnecting := reconnecting st;
     afterReconnect := afterReconnect st; subscriptions := subscriptions st;
     lastMessageAt := lastMessageAt st; pingAt := pingAt st; pongAt := pongAt
     st; ws := ws st; heartbeat := heartbeat st; promises := promises st;
     settled := settled st; reactions := reactions st; opening := opening st;
     microtasks := microtasks st; timers := timers st; effects := x;
     listeners := listeners st |}.

Definition set_listeners (x : list string) (st : Connection) : Connection :=
  {| key := key st; secret := secret st; subaccount := subaccount st;
     WSendpoint := WSendpoint st; connected := connected st; isReady := isReady
     st; authenticated := authenticated st; reconnecting := reconnecting st;
     afterReconnect := afterReconnect st; subscriptions := subscriptions st;
     lastMessageAt := lastMessageAt st; pingAt := pingAt st; pongAt := pongAt
     st; ws := ws st; heartbeat := heartbeat st; promises := promises st;
     settled := settled st; reactions := reactions st; opening := opening st;
     microtasks := microtasks st; timers := timers st; effects := effects st;
     listeners := x |}.

(** [new Connection(conf)] with [conf = { key, secret, subaccount,
    endpoint }]: a credential left out of [conf] is [VUndefined], the
    endpoint is a string or left out. *)
Definition new_Connection (key secret subaccount : value) (endpoint : option string)
  : Connection :=
  {| key := key; secret := secret; subaccount := subaccount;
     WSendpoint := match endpoint with
                   | Some s => if (s =? "")%string then DEFAULT_ENDPOINT else s
                   | None => DEFAULT_ENDPOINT
                   end;
     connected := false; isReady := 0%nat; authenticated := false;
     reconnecting := false; afterReconnect := None; subscriptions := [];
     lastMessageAt := 0; pingAt := Unset; pongAt := Unset;
     ws := 0%nat; heartbeat := None;
     promises := 1%nat; settled := []; reactions := []; opening := [];
     microtasks := []; timers := []; effects := [];
     listeners := [] |}.

(** How a call ends: the method returned, it threw (for an [async] method:
    the promise it returns is rejected, before any [await]), or it stopped
    at an [await], what follows being kept in the state. *)
Inductive outcome (A : Type) : Type :=
| Returned (result : A) (st : Connection)
| Threw (e : error) (st : Connection)
| Awaits (st : Connection).

Arguments Returned {A} result st.
Arguments Threw {A} e st.
Arguments Awaits {A} st.

Definition effect_ (e : effect) (st : Connection) : Connection :=
  set_effects (effects st ++ [e]) st.

(** A call whose promise nobody keeps: all that is left of it is the
    state, and the report of a rejection. *)
Definition drop {A : Type} (o : outcome A) : Connection :=
  match o with
  | Returned _ st => st
  | Threw e st => effect_ (Unhandled e) st
  | Awaits st => st
  end.

(** *** Promises and the job queue *)

Definition is_settled (p : nat) (st : Connection) : bool :=
  existsb (Nat.eqb p) (settled st).

Definition enqueue (k : cont) (st : Connection) : Connection :=
  set_microtasks (microtasks st ++ [k]) st.

(** [new Promise(r => ...)]: the promise's number and the state after. *)
Definition new_promise (st : Connection) : nat * Connection :=
  (promises st, set_promises (S (promises st)) st).

(** Calling the resolver of promise [p]: nothing when [p] is settled, else
    the jobs that wait for it are queued in the order they came. *)
Definition resolve (p : nat) (st : Connection) : Connection :=
  if is_settled p st then st
  else
    let waiting := filter (fun r => Nat.eqb (fst r) p) (reactions st) in
    let others := filter (fun r => negb (Nat.eqb (fst r) p)) (reactions st) in
    set_settled (p :: settled st)
      (set_reactions others
         (set_microtasks (microtasks st ++ map snd waiting) st)).

(** [await x] with [k] what follows: [x] is a promise or [undefined]. *)
Definition await (x : option nat) (k : cont) (st : Connection) : Connection :=
  match x with
  | Some p =>
      if is_settled p st then enqueue k st
      else set_reactions (reactions st ++ [(p, k)]) st
  | None => enqueue k st
  end.

(** ** What comes from libraries *)

(** [JSON.parse] ([None]: it throws a SyntaxError), [JSON.stringify], and
    [crypto.createHmac('sha256', secret).update(text).digest('hex')]. *)
Class Externals : Type := {
  JSON_parse : string -> option value;
  JSON_stringify : value -> string;
  hmac_sha256_hex : string -> string -> string
}.

(** ** The methods *)

Section Methods.

Context {ext : Externals}.

(** [this.ws.send(frame)].  The state of the socket is not modelled: a
    frame given to a socket that is not open is recorded like any other.
    The class sends on an open connection or after a reconnection, so once
    [_connect] has set [this.ws]. *)
Definition ws_send (frame : string) (st : Connection) : Connection :=
  effect_ (WsSend (ws st) frame) st.

Definition sendMessage (payload : value) (st : Connection) : outcome unit :=
  if negb (connected st) then
    if negb (reconnecting st) then Threw (Error "Not connected.") st
    else Awaits (await (afterReconnect st) (KSendMessage payload) st)
  else Returned tt (ws_send (JSON_stringify payload) st).

(** [{ op: 'subscribe', market: sub.market, channel: sub.channel }] *)
Definition subscribe_message (sub : Sub) : value :=
  VObj [("op", VStr "subscribe"); ("market", sub_market sub);
        ("channel", sub_channel sub)].

Fixpoint update {A : Type} (i : nat) (x : A) (l : list A) : list A :=
  match l, i with
  | [], _ => []
  | _ :: rest, O => x :: rest
  | y :: rest, S i => y :: update i x rest
  end.

(** [_subscribe(sub)], with [sub] the [i]-th object of
    [this.subscriptions]: the object is changed where it is. *)
Definition _subscribe (i : nat) (st : Connection) : Connection :=
  match nth_error (subscriptions st) i with
  | None => st
  | Some sub =>
      let (p, st) := new_promise st in
      let sub := {| sub_id := sub_id sub; sub_channel := sub_channel sub;
                    sub_market := sub_market sub;
                    sub_doneHook := Some p; sub_done := Some p |} in
      let st := set_subscriptions (update i sub (subscriptions st)) st in
      drop (sendMessage (subscribe_message sub) st)
  end.

(** [subscribe] from its duplicate check on. *)
Definition subscribe_registered (id channel market : value) (st : Connection)
  : outcome (option nat) :=
  if existsb (strict_eq id) (map sub_id (subscriptions st)) then
    Returned None
      (effect_ (Console Err "refusing to channel subscribe twice" [market; channel]) st)
  else
    let sub := {| sub_id := id; sub_channel := channel; sub_market := market;
                  sub_doneHook := None; sub_done := None |} in
    let i := length (subscriptions st) in
    let st := set_subscriptions (subscriptions st ++ [sub]) st in
    let st := _subscribe i st in
    Returned (match nth_error (subscriptions st) i with
               | Some sub => sub_done sub
               | None => None
               end) st.

Definition market_value (market : option string) : value :=
  match market with
  | Some m => VStr m
  | None => VUndefined
  end.

(** [subscribe(channel, market = undefined)]: [channel] is a string,
    [market] a string or left out.  The result is the promise the call
    resolves to ([sub.done]), or [undefined]. *)
Definition subscribe (channel : string) (market : option string) (st : Connection)
  : outcome (option nat) :=
  match toId (market_value market) (VStr channel) with
  | None => Threw TypeError st
  | Some id =>
      if negb (connected st) then
        if negb (reconnecting st) then Threw (Error "Not connected.") st
        else Awaits (await (afterReconnect st)
                        (KSubscribe id (VStr channel) (market_value market)) st)
      else subscribe_registered id (VStr channel) (market_value market) st
  end.

(** [terminate()].  Before the first [_connect] there is no [this.ws],
    and [this.ws.terminate()] is a TypeError that leaves the flags as
    they are. *)
Definition terminate (st : Connection) : outcome unit :=
  let st := effect_ (Console Out "[FTX] TERMINATED WS CON" []) st in
  if Nat.eqb (ws st) 0 then Threw TypeError st
  else
    let st := effect_ (WsTerminate (ws st)) st in
    let st := set_authenticated false st in
    Returned tt (set_connected false st).

(** The test of [ping]: [this.pingAt && this.pongAt > this.pingAt &&
    this.pongAt - this.pingAt > STALE_TIMEOUT]. *)
Definition stale (st : Connection) : bool :=
  stamp_truthy (pingAt st)
  && js_gt (to_number (pongAt st)) (to_number (pingAt st))
  && js_gt (js_sub (to_number (pongAt st)) (to_number (pingAt st))) (Some STALE_TIMEOUT).

(** [ping], run by the interval timer; [now] is [+new Date]. *)
Definition ping (now : Z) (st : Connection) : Connection :=
  if stale st then
    drop (terminate
            (effect_ (Console Err "[FTX] did NOT receive pong in time, reconnecting"
                        [VObj [("pingAt", stamp_value (pingAt st));
                               ("pongAt", stamp_value (pongAt st))]]) st))
  else
    drop (sendMessage (VObj [("op", VStr "ping")]) (set_pingAt (At now) st)).

(** [await this._connect()] with [k] what follows.  When connected,
    [_connect] returns [undefined]; else the promise it returns is resolved
    by the [onopen] of the socket it opens. *)
Definition _connect (k : cont) (st : Connection) : Connection :=
  if connected st then enqueue k st
  else
    let socket := S (ws st) in
    let st := effect_ (NewWebSocket ("wss://" ++ WSendpoint st)) st in
    let st := set_ws socket st in
    let st := set_opening (opening st ++ [(socket, k)]) st in
    let st := effect_ (SetInterval socket) st in
    set_heartbeat (Some socket) st.

(** [connect()], up to its [await]; [awaited_by] is what waits for the
    promise that [connect] returns. *)
Definition connect (awaited_by : option cont) (st : Connection) : outcome unit :=
  Awaits (_connect (KConnect awaited_by) st).

(** [{ op: 'login', args: { key, sign, time, subaccount } }] *)
Definition login_message (key : value) (signature : string) (date : Z)
  (subaccount : value) : value :=
  VObj [("op", VStr "login");
        ("args", VObj [("key", key); ("sign", VStr signature);
                       ("time", VNum date); ("subaccount", subaccount)])].

(** [authenticate] from [const date = +new Date] on.  [createHmac] throws
    when the secret is no string. *)
Definition authenticate_connected (date : Z) (st : Connection) : outcome unit :=
  match secret st with
  | VStr s =>
      let signature := hmac_sha256_hex s (decimal date ++ "websocket_login") in
      let message := login_message (key st) signature date (subaccount st) in
      let st := drop (sendMessage message st) in
      Returned tt (set_authenticated true st)
  | _ => Threw TypeError st
  end.

Definition authenticate (now : Z) (st : Connection) : outcome unit :=
  if negb (connected st) then connect (Some KAuthenticate) st
  else authenticate_connected now st.

(** [reconnect()], up to [await wait(500)]. *)
Definition reconnect (st : Connection) : outcome unit :=
  let st := set_reconnecting true st in
  let st := set_pingAt Reset st in
  let st := set_pongAt Reset st in
  let (hook, st) := new_promise st in
  let st := set_afterReconnect (Some hook) st in
  let (ready, st) := new_promise st in
  let st := set_isReady ready st in
  Awaits (set_timers (timers st ++ [KReconnectWaited hook]) st).

(** [this.subscriptions.forEach(sub => { this._subscribe(sub) })] *)
Definition replay (st : Connection) : Connection :=
  fold_left (fun st i => _subscribe i st)
            (seq 0 (length (subscriptions st))) st.

(** The job [k], run at time [now]. *)
Definition resume (now : Z) (k : cont) (st : Connection) : Connection :=
  match k with
  | KSendMessage payload => ws_send (JSON_stringify payload) st
  | KSubscribe id channel market => drop (subscribe_registered id channel market st)
  | KConnect awaited_by =>
      let st := if truthy (key st) then drop (authenticate now st) else st in
      match awaited_by with
      | Some k => enqueue k st
      | None => st
      end
  | KAuthenticate => drop (authenticate_connected now st)
  | KReconnectWaited hook =>
      let st := effect_ (Console Out "[FTX] RECONNECTING..." []) st in
      drop (connect (Some (KReconnectConnected hook)) st)
  | KReconnectConnected hook =>
      let st := resolve hook st in
      let st := resolve (isReady st) st in
      replay st
  end.

(** The job queue runs until it is empty before the next event is taken;
    [fuel] bounds the number of jobs. *)
Fixpoint drain (fuel : nat) (now : Z) (st : Connection) : Connection :=
  match fuel, microtasks st with
  | S fuel, k :: rest => drain fuel now (resume now k (set_microtasks rest st))
  | _, _ => st
  end.

(** *** The handlers of the socket *)

(** [ws.onopen] of the socket numbered [socket]. *)
Definition onopen (socket : nat) (st : Connection) : Connection :=
  let st := set_connected true st in
  let st := resolve (isReady st) st in
  let opened := filter (fun o => Nat.eqb (fst o) socket) (opening st) in
  let others := filter (fun o => negb (Nat.eqb (fst o) socket)) (opening st) in
  set_opening others (set_microtasks (microtasks st ++ map snd opened) st).

Definition onerror (message : value) (st : Connection) : Connection :=
  effect_ (Console Out "[FTX] WS ERROR" [message]) st.

Definition onclose (st : Connection) : Connection :=
  let st := effect_ (Console Out "[FTX] CLOSED CON" []) st in
  let st := set_authenticated false st in
  let st := set_connected false st in
  let st := effect_ (ClearInterval (heartbeat st)) st in
  drop (reconnect st).

(** [this.on(name, listener)], inherited from EventEmitter.  The listeners
    are the caller's: the class registers none, and all it can see of them
    is whether [emit] finds one. *)
Definition on (name : string) (st : Connection) : Connection :=
  set_listeners (listeners st ++ [name]) st.

(** [this.emit(name, data)], inherited from EventEmitter: the listeners of
    [name] are called, if any, and return.  The name [error] is special:
    with no listener for it, [emit] throws instead; [data] comes from
    [JSON.parse], so is no [Error] object, and what is thrown is an
    [ERR_UNHANDLED_ERROR] that holds it. *)
Definition emit (name data : value) (st : Connection) : outcome unit :=
  if strict_eq name (VStr "error") && negb (existsb (String.eqb "error") (listeners st))
  then Threw (ERR_UNHANDLED_ERROR data) st
  else Returned tt (effect_ (Emit name data) st).

(** The [forEach] of the [subscribed] branch: the hook of every entry
    whose market and channel are those of the frame is called; calling a
    hook that is still [false] throws. *)
Fixpoint acknowledge (market channel : value) (subs : list Sub) (st : Connection)
  : outcome unit :=
  match subs with
  | [] => Returned tt st
  | sub :: rest =>
      if strict_eq (sub_market sub) market && strict_eq (sub_channel sub) channel then
        match sub_doneHook sub with
        | Some p => acknowledge market channel rest (resolve p st)
        | None => Threw TypeError st
        end
      else acknowledge market channel rest st
  end.

Definition field (payload : value) (name : string) : value :=
  match get payload name with
  | Some v => v
  | None => VUndefined
  end.

(** [handleWSMessage(e)] for a text frame [e.data = data] that arrives at
    time [now].  Inside [catch(e)] the name [e] is the error caught, whose
    [data] is [undefined]. *)
Definition handleWSMessage (now : Z) (data : string) (st : Connection) : outcome unit :=
  let st := set_lastMessageAt now st in
  if (data =? PONG)%string
     && js_lt (js_sub (Some (lastMessageAt st)) (to_number (pingAt st))) (Some 5000)
  then Returned tt (set_pongAt (At (lastMessageAt st)) st)
  else
    let (payload, st) :=
      match JSON_parse data with
      | Some v => (v, st)
      | None => (VUndefined, effect_ (Console Err "ftx send bad json" [VUndefined]) st)
      end in
    match get payload "type" with
    | None => Threw TypeError st
    | Some type =>
        if strict_eq type (VStr "subscribed") then
          acknowledge (field payload "market") (field payload "channel")
            (subscriptions st) st
        else if strict_eq type (VStr "update") || strict_eq type (VStr "partial") then
          match toId (field payload "market") (field payload "channel") with
          | Some id => emit id (field payload "data") st
          | None => Threw TypeError st
          end
        else
          Returned tt (effect_ (Console Out "[FTX] unhandled WS event" [payload]) st)
    end.

(** *** Events *)

(** What happens to a [Connection]: the events of its sockets and timers,
    and the calls of its user. *)
Inductive event : Type :=
| Open (socket : nat)
| Message (data : string)
| Failure (message : value)
| Close
| Tick
| Timeout
| CallConnect
| CallAuthenticate
| CallTerminate
| CallSendMessage (payload : value)
| CallSubscribe (channel : string) (market : option string)
| CallOn (name : string).

(** The handler of an event, run at time [now]; the promise of a call is
    dropped by the caller here. *)
Definition dispatch (now : Z) (e : event) (st : Connection) : Connection :=
  match e with
  | Open socket => onopen socket st
  | Message data => drop (handleWSMessage now data st)
  | Failure message => onerror message st
  | Close => onclose st
  | Tick => ping now st
  | Timeout =>
      match timers st with
      | k :: rest => resume now k (set_timers rest st)
      | [] => st
      end
  | CallConnect => drop (connect None st)
  | CallAuthenticate => drop (authenticate now st)
  | CallTerminate => drop (terminate st)
  | CallSendMessage payload => drop (sendMessage payload st)
  | CallSubscribe channel market => drop (subscribe channel market st)
  | CallOn name => on name st
  end.

(** One turn of the event loop: the handler, then the job queue. *)
Definition turn (fuel : nat) (now : Z) (e : event) (st : Connection) : Connection :=
  drain fuel now (dispatch now e st).

Fixpoint run (fuel : nat) (events : list (Z * event)) (st : Connection) : Connection :=
  match events with
  | [] => st
  | (now, e) :: rest => run fuel rest (turn fuel now e st)
  end.

End Methods.

(** ** An implementation of the libraries, for the examples *)

(** A JSON printer and a JSON reader for the texts of the wire protocol
    (integers for numbers, no [\u] escape), and a stand-in for the HMAC.
    The theorems do not depend on them: they are what the examples below
    are run with. *)
Module Sample.

Definition dquote : ascii := ascii_of_nat 34.
Definition backslash : ascii := ascii_of_nat 92.

Fixpoint escape (s : string) : string :=
  match s with
  | EmptyString => EmptyString
  | String c rest =>
      if Ascii.eqb c dquote || Ascii.eqb c backslash
      then String backslash (String c (escape rest))
      else String c (escape rest)
  end.

Definition quoted (s : string) : string := quote ++ escape s ++ quote.

Fixpoint commas (parts : list string) : string :=
  match parts with
  | [] => EmptyString
  | [p] => p
  | p :: rest => p ++ "," ++ commas rest
  end.

(** [JSON.stringify]: a property whose value is [undefined] is left out
    of an object, an item that is [undefined] is [null] in an array. *)
Fixpoint stringify (v : value) : string :=
  match v with
  | VUndefined => "undefined"
  | VNull => "null"
  | VBool true => "true"
  | VBool false => "false"
  | VNum n => decimal n
  | VStr s => quoted s
  | VArr items =>
      "[" ++ commas ((fix each (l : list value) : list string :=
                        match l with
                        | [] => []
                        | VUndefined :: rest => "null" :: each rest
                        | x :: rest => stringify x :: each rest
                        end) items) ++ "]"
  | VObj props =>
      "{" ++ commas ((fix each (l : list (string * value)) : list string :=
                        match l with
                        | [] => []
                        | (_, VUndefined) :: rest => each rest
                        | (k, x) :: rest => (quoted k ++ ":" ++ stringify x) :: each rest
                        end) props) ++ "}"
  end.

Definition is_space (c : ascii) : bool :=
  Ascii.eqb c " " || Ascii.eqb c (ascii_of_nat 9)
  || Ascii.eqb c (ascii_of_nat 10) || Ascii.eqb c (ascii_of_nat 13).

Fixpoint skip (s : string) : string :=
  match s with
  | String c rest => if is_space c then skip rest else s
  | EmptyString => s
  end.

Definition digit (c : ascii) : option Z :=
  let n := Z.of_nat (nat_of_ascii c) in
  if (48 <=? n) && (n <=? 57) then Some (n - 48) else None.

Fixpoint digits (acc : Z) (s : string) : Z * string :=
  match s with
  | String c rest =>
      match digit c with
      | Some d => digits (10 * acc + d) rest
      | None => (acc, s)
      end
  | EmptyString => (acc, s)
  end.

(** An integer without a leading zero, a fraction or an exponent. *)
Definition number (s : string) : option (Z * string) :=
  match s with
  | String c rest =>
      match digit c with
      | Some 0 =>
          match rest with
          | String c' _ =>
              if Ascii.eqb c' "." || Ascii.eqb c' "e" || Ascii.eqb c' "E"
                 || match digit c' with Some _ => true | None => false end
              then None else Some (0, rest)
          | EmptyString => Some (0, rest)
          end
      | Some d =>
          let (n, rest') := digits d rest in
          match rest' with
          | String c' _ =>
              if Ascii.eqb c' "." || Ascii.eqb c' "e" || Ascii.eqb c' "E"
              then None else Some (n, rest')
          | EmptyString => Some (n, rest')
          end
      | None => None
      end
  | EmptyString => None
  end.

(** The characters of a string after its opening quote, up to the closing
    one. *)
Fixpoint chars (s : string) : option (string * string) :=
  match s with
  | EmptyString => None
  | String c rest =>
      if Ascii.eqb c dquote then Some (EmptyString, rest)
      else if Ascii.eqb c backslash then
        match rest with
        | String e rest' =>
            let plain :=
              if Ascii.eqb e dquote || Ascii.eqb e backslash || Ascii.eqb e "/"
              then Some e
              else if Ascii.eqb e "n" then Some (ascii_of_nat 10)
              else if Ascii.eqb e "t" then Some (ascii_of_nat 9)
              else if Ascii.eqb e "r" then Some (ascii_of_nat 13)
              else if Ascii.eqb e "b" then Some (ascii_of_nat 8)
              else if Ascii.eqb e "f" then Some (ascii_of_nat 12)
              else None in
            match plain, chars rest' with
            | Some x, Some (str, after) => Some (String x str, after)
            | _, _ => None
            end
        | EmptyString => None
        end
      else if (nat_of_ascii c <? 32)%nat then None
      else
        match chars rest with
        | Some (str, after) => Some (String c str, after)
        | None => None
        end
  end.

Definition word (w : string) (v : value) (s : string) : option (value * string) :=
  if prefix w s
  then Some (v, substring (String.length w) (String.length s - String.length w)%nat s)
  else None.

(** [o[k] = v]: an own property keeps its place when it is assigned again. *)
Fixpoint assign (k : string) (v : value) (props : list (string * value))
  : list (string * value) :=
  match props with
  | [] => [(k, v)]
  | (k', v') :: rest =>
      if (k =? k')%string then (k, v) :: rest else (k', v') :: assign k v rest
  end.

(** A value at the head of [s], and what follows it. *)
Fixpoint element (fuel : nat) (s : string) : option (value * string) :=
  match fuel with
  | O => None
  | S fuel =>
      match skip s with
      | EmptyString => None
      | String c rest =>
          if Ascii.eqb c "n" then word "null" VNull (skip s)
          else if Ascii.eqb c "t" then word "true" (VBool true) (skip s)
          else if Ascii.eqb c "f" then word "false" (VBool false) (skip s)
          else if Ascii.eqb c dquote then
            match chars rest with
            | Some (str, after) => Some (VStr str, after)
            | None => None
            end
          else if Ascii.eqb c "-" then
            match number rest with
            | Some (n, after) => Some (VNum (- n), after)
            | None => None
            end
          else if Ascii.eqb c "[" then
            match skip rest with
            | String c' after =>
                if Ascii.eqb c' "]" then Some (VArr [], after)
                else
                  match items fuel rest with
                  | Some (l, after) => Some (VArr l, after)
                  | None => None
                  end
            | EmptyString => None
            end
          else if Ascii.eqb c "{" then
            match skip rest with
            | String c' after =>
                if Ascii.eqb c' "}" then Some (VObj [], after)
                else
                  match members fuel [] rest with
                  | Some (l, after) => Some (VObj l, after)
                  | None => None
                  end
            | EmptyString => None
            end
          else
            match number (skip s) with
            | Some (n, after) => Some (VNum n, after)
            | None => None
            end
      end
  end
with items (fuel : nat) (s : string) : option (list value * string) :=
  match fuel with
  | O => None
  | S fuel =>
      match element fuel s with
      | Some (v, after) =>
          match skip after with
          | String c rest =>
              if Ascii.eqb c "]" then Some ([v], rest)
              else if Ascii.eqb c "," then
                match items fuel rest with
                | Some (l, after') => Some (v :: l, after')
                | None => None
                end
              else None
          | EmptyString => None
          end
      | None => None
      end
  end
with members (fuel : nat) (acc : list (string * value)) (s : string)
  : option (list (string * value) * string) :=
  match fuel with
  | O => None
  | S fuel =>
      match skip s with
      | String q rest =>
          if Ascii.eqb q dquote then
            match chars rest with
            | Some (k, after) =>
                match skip after with
                | String c rest' =>
                    if Ascii.eqb c ":" then
                      match element fuel rest' with
                      | Some (v, after') =>
                          match skip after' with
                          | String c' rest'' =>
                              if Ascii.eqb c' "}" then Some (assign k v acc, rest'')
                              else if Ascii.eqb c' "," then
                                members fuel (assign k v acc) rest''
                              else None
                          | EmptyString => None
                          end
                      | None => None
                      end
                    else None
                | EmptyString => None
                end
            | None => None
            end
          else None
      | EmptyString => None
      end
  end.

(** [JSON.parse]: one value, with nothing but blanks around it. *)
Definition parse (s : string) : option value :=
  match element (S (String.length s)) s with
  | Some (v, after) =>
      match skip after with
      | EmptyString => Some v
      | _ => None
      end
  | None => None
  end.

(** Not an HMAC: a text that shows what was signed with which secret. *)
Definition hmac (secret text : string) : string :=
  "hmac-sha256(" ++ secret ++ "," ++ text ++ ")".

#[export] Instance externals : Externals :=
  {| JSON_parse := parse; JSON_stringify := stringify; hmac_sha256_hex := hmac |}.

End Sample.


(** * The words of the statements *)

(** The key as the specification words it: the channel alone when no
    market is given, else market, two colons, channel. *)
Definition spec_topic_key (market : option string) (channel : string) : string :=
  match market with
  | None => channel
  | Some m => m ++ "::" ++ channel
  end.

(** The key as [toId] computes it on strings: an empty market counts as
    none. *)
Definition topic_key (market : option string) (channel : string) : string :=
  match market with
  | None => channel
  | Some m => if (m =? "")%string then channel else m ++ "::" ++ channel
  end.

(** A ping is recorded, a pong is recorded after it, and the pong came
    more than [STALE_TIMEOUT] ms after the ping. *)
Definition late_pong (st : Connection) : Prop :=
  exists p q, pingAt st = At p /\ pongAt st = At q /\ p < q /\ STALE_TIMEOUT < q - p.

(** No pong is recorded after the last ping. *)
Definition no_pong_since_ping (st : Connection) : Prop :=
  forall p q, pingAt st = At p -> pongAt st = At q -> q <= p.

(** The frames given to [ws.send], each with the number of its socket,
    oldest first. *)
Fixpoint sends (es : list effect) : list (nat * string) :=
  match es with
  | [] => []
  | WsSend socket frame :: rest => (socket, frame) :: sends rest
  | _ :: rest => sends rest
  end.

(** The keys of the registry, in the order of registration. *)
Definition ids (st : Connection) : list value := map sub_id (subscriptions st).

(** A request [subscribe(channel, market)] and its key. *)
Definition key_of (c : string * option string) : value :=
  VStr (topic_key (snd c) (fst c)).

(** [sub] after [_subscribe] gave it promise [p]. *)
Definition signalled (p : nat) (sub : Sub) : Sub :=
  {| sub_id := sub_id sub; sub_channel := sub_channel sub;
     sub_market := sub_market sub; sub_doneHook := Some p; sub_done := Some p |}.

(** The registry after a replay that starts with [p] promises created:
    the entries in their order, each with a promise of its own. *)
Fixpoint renew (p : nat) (subs : list Sub) : list Sub :=
  match subs with
  | [] => []
  | sub :: rest => signalled p sub :: renew (S p) rest
  end.

(** What a caller asks for while the connection is down. *)
Inductive request : Type :=
| Send (payload : value)
| Subscribe (channel : string) (market : option string).

Definition call (r : request) : event :=
  match r with
  | Send payload => CallSendMessage payload
  | Subscribe channel market => CallSubscribe channel market
  end.

(** What is left of the call once it waits for [this.afterReconnect]. *)
Definition continuation (r : request) : cont :=
  match r with
  | Send payload => KSendMessage payload
  | Subscribe channel market =>
      KSubscribe (VStr (topic_key market channel)) (VStr channel) (market_value market)
  end.

Definition calls (rs : list (Z * request)) : list (Z * event) :=
  map (fun c => (fst c, call (snd c))) rs.

(** Between two events, with no reconnection under way: no job is queued,
    no [wait(500)] is pending, and every socket, settled promise and
    awaited promise was created before. *)
Definition quiet (st : Connection) : Prop :=
  microtasks st = []
  /\ timers st = []
  /\ Forall (fun o => (fst o <= ws st)%nat) (opening st)
  /\ Forall (fun p => (p < promises st)%nat) (settled st)
  /\ Forall (fun r => (fst r < promises st)%nat) (reactions st).

(** The connection [st] in the course of a reconnection: what [reconnect]
    sets once and for all, and the fields that go on changing. *)
Definition during (st : Connection) (up auth : bool) (socket : nat)
  (beat : option nat) (subs : list Sub) (created : nat) (done : list nat)
  (waiting dialing : list (nat * cont)) (jobs sleeping : list cont)
  (log : list effect) : Connection :=
  {| key := key st; secret := secret st; subaccount := subaccount st;
     WSendpoint := WSendpoint st; connected := up; isReady := S (promises st);
     authenticated := auth; reconnecting := true;
     afterReconnect := Some (promises st); subscriptions := subs;
     lastMessageAt := lastMessageAt st; pingAt := Reset; pongAt := Reset;
     ws := socket; heartbeat := beat; promises := created; settled := done;
     reactions := waiting; opening := dialing; microtasks := jobs;
     timers := sleeping; effects := log;
     listeners := listeners st |}.

Definition closed_log (st : Connection) : list effect :=
  effects st ++ [Console Out "[FTX] CLOSED CON" []; ClearInterval (heartbeat st)].

Definition dialing_log (st : Connection) : list effect :=
  closed_log st ++ [Console Out "[FTX] RECONNECTING..." [];
                    NewWebSocket ("wss://" ++ WSendpoint st); SetInterval (S (ws st))].

Section Vocabulary.

Context {ext : Externals}.

(** The calls [subscribe(channel, market)] of [calls], one after the other,
    the caller keeping none of the promises. *)
Definition subscribe_all (calls : list (string * option string)) (st : Connection)
  : Connection :=
  fold_left (fun st c => drop (subscribe (fst c) (snd c) st)) calls st.

Definition resent (socket : nat) (sub : Sub) : effect :=
  WsSend socket (JSON_stringify (subscribe_message sub)).

(** The frames the waiting calls send on [socket] once they go on, the
    registry holding the keys [registered]. *)
Fixpoint queued_frames (socket : nat) (registered : list value) (rs : list request)
  : list (nat * string) :=
  match rs with
  | [] => []
  | Send payload :: rest =>
      (socket, JSON_stringify payload) :: queued_frames socket registered rest
  | Subscribe channel market :: rest =>
      let id := VStr (topic_key market channel) in
      if existsb (strict_eq id) registered then queued_frames socket registered rest
      else
        (socket, JSON_stringify (VObj [("op", VStr "subscribe");
                                       ("market", market_value market);
                                       ("channel", VStr channel)]))
          :: queued_frames socket (registered ++ [id]) rest
  end.

(** The login frame of a connection that has a key and a secret. *)
Definition login_frames (socket : nat) (t : Z) (st : Connection) : list (nat * string) :=
  if truthy (key st) then
    match secret st with
    | VStr s =>
        [(socket,
          JSON_stringify
            (login_message (key st)
               (hmac_sha256_hex s (decimal t ++ "websocket_login")) t (subaccount st)))]
    | _ => []
    end
  else [].

(** What the job of [connect] does on the open [socket] at time [t]: the
    login frame when the connection has a key, or the report of the
    TypeError of [createHmac] when its secret is no string. *)
Definition login_log (socket : nat) (t : Z) (st : Connection) : list effect :=
  if truthy (key st) then
    match secret st with
    | VStr s =>
        [WsSend socket
           (JSON_stringify
              (login_message (key st)
                 (hmac_sha256_hex s (decimal t ++ "websocket_login")) t (subaccount st)))]
    | _ => [Unhandled TypeError]
    end
  else [].

Definition logged_in (st : Connection) : bool :=
  truthy (key st) && match secret st with VStr _ => true | _ => false end.

End Vocabulary.

(** ** The words of the further properties *)

(** A frame that arrives at [now] is in time for the last ping: less than
    5000 ms after it.  After a reconnect [pingAt] is [false], which counts
    as time 0; before the first tick it is [undefined], and no frame is in
    time. *)
Definition in_time (now : Z) (st : Connection) : Prop :=
  match to_number (pingAt st) with
  | Some p => now - p < 5000
  | None => False
  end.

(** The entry [sub] is one that a [subscribed] frame [payload] names. *)
Definition acknowledged_by (payload : value) (sub : Sub) : bool :=
  strict_eq (sub_market sub) (field payload "market")
  && strict_eq (sub_channel sub) (field payload "channel").





(** [st'] has the liveness timestamps, the [reconnecting] flag, the
    listeners and the configuration of [st]. *)
Definition steady (st st' : Connection) : Prop :=
  pingAt st' = pingAt st
  /\ pongAt st' = pongAt st
  /\ reconnecting st' = reconnecting st
  /\ listeners st' = listeners st
  /\ key st' = key st
  /\ secret st' = secret st
  /\ subaccount st' = subaccount st
  /\ WSendpoint st' = WSendpoint st.

(** The events come in the order of their times, none before [t]. *)
Fixpoint chronological (t : Z) (events : list (Z * event)) : Prop :=
  match events with
  | [] => True
  | (t', _) :: rest => t <= t' /\ chronological t' rest
  end.

(** At time [t], a reading of a clock after 1970: the ping recorded is a
    reading of that clock, the pong recorded is not from the future, and
    it came less than 5000 ms after the ping recorded. *)
Definition timely (t : Z) (st : Connection) : Prop :=
  0 <= t
  /\ (forall p, pingAt st = At p -> 0 <= p)
  /\ (forall q, pongAt st = At q -> q <= t)
  /\ (forall p q, pingAt st = At p -> pongAt st = At q -> q - p < 5000).

(** A stored continuation is one the class makes: what is left of a
    [subscribe] holds the key of its channel and market. *)
Fixpoint wf_cont (k : cont) : Prop :=
  match k with
  | KSubscribe id channel market =>
      exists (c : string) (m : option string),
        id = VStr (topic_key m c) /\ channel = VStr c /\ market = market_value m
  | KConnect (Some k) => wf_cont k
  | _ => True
  end.

(** An entry of the registry as [subscribe] leaves it, [n] promises being
    created: its hook resolves its promise, and its key is that of its
    market and channel. *)
Definition registered (n : nat) (sub : Sub) : Prop :=
  (exists p, sub_doneHook sub = Some p /\ sub_done sub = Some p /\ (p < n)%nat)
  /\ toId (sub_market sub) (sub_channel sub) = Some (sub_id sub).

(** No key twice, no promise twice, every entry as [subscribe] leaves
    it. *)
Definition registry_ok (n : nat) (subs : list Sub) : Prop :=
  NoDup (map sub_id subs)
  /\ NoDup (map sub_doneHook subs)
  /\ Forall (registered n) subs.

Definition jobs_ok (st : Connection) : Prop :=
  Forall wf_cont (microtasks st)
  /\ Forall wf_cont (timers st)
  /\ Forall (fun r => wf_cont (snd r)) (reactions st)
  /\ Forall (fun o => wf_cont (snd o)) (opening st).

Definition sound (st : Connection) : Prop :=
  registry_ok (promises st) (subscriptions st) /\ jobs_ok st.

(** ** The runs of the examples *)

Section Scenario.

#[local] Existing Instance Sample.externals.

Definition in_quotes (s : string) : string := quote ++ s ++ quote.

(** [{"type":"update","market":"BTC-PERP","channel":"ticker","data":{"bid":1}}] *)
Definition update_frame : string :=
  "{" ++ in_quotes "type" ++ ":" ++ in_quotes "update" ++ ","
  ++ in_quotes "market" ++ ":" ++ in_quotes "BTC-PERP" ++ ","
  ++ in_quotes "channel" ++ ":" ++ in_quotes "ticker" ++ ","
  ++ in_quotes "data" ++ ":{" ++ in_quotes "bid" ++ ":1}}".

(** The same frame with the empty string for its market. *)
Definition empty_market_frame : string :=
  "{" ++ in_quotes "type" ++ ":" ++ in_quotes "update" ++ ","
  ++ in_quotes "market" ++ ":" ++ in_quotes "" ++ ","
  ++ in_quotes "channel" ++ ":" ++ in_quotes "ticker" ++ ","
  ++ in_quotes "data" ++ ":{" ++ in_quotes "bid" ++ ":1}}".

(** [{"type":"subscribed","channel":"ticker","market":"BTC-PERP"}] *)
Definition subscribed_frame : string :=
  "{" ++ in_quotes "type" ++ ":" ++ in_quotes "subscribed" ++ ","
  ++ in_quotes "channel" ++ ":" ++ in_quotes "ticker" ++ ","
  ++ in_quotes "market" ++ ":" ++ in_quotes "BTC-PERP" ++ "}".

(** The same frame on the channel [error], without a market:
    [{"type":"update","channel":"error","data":{"bid":1}}] *)
Definition error_frame : string :=
  "{" ++ in_quotes "type" ++ ":" ++ in_quotes "update" ++ ","
  ++ in_quotes "channel" ++ ":" ++ in_quotes "error" ++ ","
  ++ in_quotes "data" ++ ":{" ++ in_quotes "bid" ++ ":1}}".

(** [new Connection({ key: 'key', secret: 'secret' })] *)
Definition client : Connection :=
  new_Connection (VStr "key") (VStr "secret") VUndefined None.

(** [connect()], the socket not open yet. *)
Definition dialing_client : Connection := run 4 [(1000, CallConnect)] client.

(** [connect()], and the socket opens. *)
Definition connected_client : Connection :=
  run 4 [(1000, CallConnect); (1100, Open 1%nat)] client.

(** The caller listens to [error]: [on('error', console.log)]. *)
Definition listening_client : Connection :=
  run 4 [(1150, CallOn "error")] connected_client.

(** Then [subscribe('ticker', 'BTC-PERP')]. *)
Definition ticker_client : Connection :=
  run 4 [(1200, CallSubscribe "ticker" (Some "BTC-PERP"))] connected_client.

(** Then [subscribe('fills')]. *)
Definition subscribed_client : Connection :=
  run 4 [(1300, CallSubscribe "fills" None)] ticker_client.

(** The connection of [ticker_client] closes and opens again, and the
    venue acknowledges the subscription that was replayed. *)
Definition reconnected_client : Connection :=
  run 4 [(2000, Close); (2500, Timeout); (2600, Open 2%nat);
         (2700, Message subscribed_frame)] ticker_client.

(** A first tick on the open connection. *)
Definition pinged_client : Connection := run 4 [(1500, Tick)] connected_client.

(** Its pong comes 2500 ms later. *)
Definition late_client : Connection := run 4 [(4000, Message PONG)] pinged_client.


End Scenario.

(** * Theorems *)

(** ** Topic keys *)

Lemma toId_strings (market : option string) (channel : string) :
  toId (market_value market) (VStr channel) = Some (VStr (topic_key market channel)).
Proof.
  destruct market as [m|]; [|reflexivity].
  unfold toId, topic_key; simpl.
  destruct (m =? "")%string; reflexivity.
Qed.

Lemma topic_key_given (m channel : string) :
  m <> "" -> topic_key (Some m) channel = spec_topic_key (Some m) channel.
Proof.
  intros Hm. unfold topic_key, spec_topic_key.
  destruct (String.eqb_spec m ""); [contradiction|reflexivity].
Qed.

Lemma sends_app (a b : list effect) : sends (a ++ b) = (sends a ++ sends b)%list.
Proof.
  induction a as [|e a IH]; [reflexivity|].
  destruct e; simpl; rewrite IH; reflexivity.
Qed.

Section Properties.

Context {ext : Externals}.

(** C4.  In a state that is neither connected nor reconnecting,
    [sendMessage] and [subscribe] throw [Error('Not connected.')] before
    any [await]; the state they leave is the state they found: nothing is
    sent, no flag and no subscription changes. *)
Theorem not_connected_fails (payload : value) (channel : string)
  (market : option string) (st : Connection) :
  connected st = false ->
  reconnecting st = false ->
  sendMessage payload st = Threw (Error "Not connected.") st
  /\ subscribe channel market st = Threw (Error "Not connected.") st.
Proof.
  intros Hc Hr. split.
  - unfold sendMessage. rewrite Hc, Hr. reflexivity.
  - unfold subscribe. rewrite toId_strings, Hc, Hr. reflexivity.
Qed.


(** C9.  The authentication step at time [t], the secret being the string
    [s]: it signs [decimal t ++ "websocket_login"] with [s] and gives
    [{op: 'login', args: {key, sign, time: t, subaccount}}] to [ws.send].
    On an open connection [authenticate] does so at once: that one frame
    is all it adds to what was sent, and it returns, marked authenticated,
    without any [await] and with nothing queued.  On a connection that is
    not open it sends nothing and waits for [connect]; the step is then
    the job [KAuthenticate], which sends the same frame with the time it
    runs at. *)
Theorem authenticate_sends_login (t : Z) (s : string) (st : Connection) :
  secret st = VStr s ->
  let sign := hmac_sha256_hex s (decimal t ++ "websocket_login") in
  let message :=
    VObj [("op", VStr "login");
          ("args", VObj [("key", key st); ("sign", VStr sign);
                         ("time", VNum t); ("subaccount", subaccount st)])] in
  (connected st = true ->
   exists st',
     authenticate t st = Returned tt st'
     /\ st' = set_authenticated true (ws_send (JSON_stringify message) st)
     /\ effects st' = (effects st ++ [WsSend (ws st) (JSON_stringify message)])%list
     /\ sends (effects st') = (sends (effects st) ++ [(ws st, JSON_stringify message)])%list
     /\ authenticated st' = true
     /\ connected st' = true
     /\ microtasks st' = microtasks st
     /\ reactions st' = reactions st
     /\ opening st' = opening st
     /\ timers st' = timers st)
  /\ (connected st = false ->
      exists st',
        authenticate t st = Awaits st'
        /\ sends (effects st') = sends (effects st)
        /\ authenticated st' = authenticated st
        /\ opening st' = (opening st ++ [(S (ws st), KConnect (Some KAuthenticate))])%list)
  /\ (connected st = true ->
      effects (resume t KAuthenticate st)
      = (effects st ++ [WsSend (ws st) (JSON_stringify message)])%list
      /\ authenticated (resume t KAuthenticate st) = true).
Proof.
  intros Hs. cbv zeta. split; [|split].
  - intros Hc. eexists. split; [|split; [reflexivity|]].
    + unfold authenticate. rewrite Hc. simpl.
      unfold authenticate_connected. rewrite Hs.
      unfold sendMessage. rewrite Hc. reflexivity.
    + repeat split; try exact Hc. cbn. rewrite sends_app. reflexivity.
  - intros Hc. eexists. split.
    + unfold authenticate, connect, _connect. rewrite Hc. reflexivity.
    + repeat split. cbn. rewrite !sends_app. cbn. rewrite !app_nil_r. reflexivity.
  - intros Hc. unfold resume, authenticate_connected. rewrite Hs.
    unfold sendMessage. rewrite Hc. split; reflexivity.
Qed.

(** ** The liveness monitor *)

Lemma stale_iff_late_pong (st : Connection) :
  (forall p, pingAt st = At p -> 0 < p) ->
  stale st = true <-> late_pong st.
Proof.
  intros Hpos. unfold stale, late_pong, STALE_TIMEOUT. split.
  - intros H. apply andb_prop in H as [H Hrtt]. apply andb_prop in H as [Hset Hgt].
    destruct (pingAt st) as [| |p] eqn:Ep; try discriminate.
    specialize (Hpos p eq_refl).
    destruct (pongAt st) as [| |q] eqn:Eq; simpl in *; try discriminate.
    + apply Z.gtb_lt in Hgt. lia.
    + apply Z.gtb_lt in Hgt. apply Z.gtb_lt in Hrtt. exists p, q. repeat split; lia.
  - intros (p & q & Ep & Eq & Hlt & Hrtt). rewrite Ep, Eq. simpl.
    specialize (Hpos p Ep).
    replace (p =? 0) with false by (symmetry; apply Z.eqb_neq; lia).
    replace (q >? p) with true by (symmetry; apply Z.gtb_lt; lia).
    replace (q - p >? 2000) with true by (symmetry; apply Z.gtb_lt; lia).
    reflexivity.
Qed.

Lemma sendMessage_dropped (payload : value) (st : Connection) :
  pingAt (drop (sendMessage payload st)) = pingAt st
  /\ exists tail,
       effects (drop (sendMessage payload st)) = (effects st ++ tail)%list
       /\ (tail = []
           \/ tail = [WsSend (ws st) (JSON_stringify payload)]
           \/ tail = [Unhandled (Error "Not connected.")]).
Proof.
  unfold sendMessage.
  destruct (connected st); cbn [negb].
  - split; [reflexivity|]. eexists. split; [reflexivity|]. right. left. reflexivity.
  - destruct (reconnecting st); cbn [negb].
    + unfold await. destruct (afterReconnect st) as [p|]; [destruct (is_settled p st)|].
      all: split; [reflexivity|]; exists []; cbn; rewrite app_nil_r; auto.
    + split; [reflexivity|]. eexists. split; [reflexivity|]. right. right. reflexivity.
Qed.

(** C6, amended.  A tick, timestamps being readings of a clock after 1970
    and the timer being one that [_connect] started, so that [this.ws] is
    a socket.  The socket is terminated exactly when a ping is recorded, a
    pong is recorded after it and came more than 2000 ms after it; that
    tick sends no ping and leaves [pingAt] as it is.  In every other
    case, so whenever no pong came since the last ping, the tick
    terminates nothing and records [now] as the new ping time.  Its ping
    frame is written by the tick on an open connection only.  On a
    connection that is not open the tick sends nothing: before the first
    reconnection [sendMessage] throws and nobody catches it; after it the
    frame waits for [afterReconnect] like any other call. *)
Theorem ping_terminates_iff_late_pong (now : Z) (st : Connection) :
  (forall p, pingAt st = At p -> 0 < p) ->
  ws st <> 0%nat ->
  let message := VObj [("op", VStr "ping")] in
  ((exists log, effects (ping now st) = (effects st ++ log ++ [WsTerminate (ws st)])%list)
   <-> late_pong st)
  /\ (late_pong st ->
      connected (ping now st) = false
      /\ authenticated (ping now st) = false
      /\ pingAt (ping now st) = pingAt st
      /\ sends (effects (ping now st)) = sends (effects st))
  /\ (~ late_pong st ->
      ping now st = drop (sendMessage message (set_pingAt (At now) st))
      /\ pingAt (ping now st) = At now
      /\ pongAt (ping now st) = pongAt st
      /\ connected (ping now st) = connected st
      /\ sends (effects (ping now st))
         = (sends (effects st)
            ++ if connected st then [(ws st, JSON_stringify message)] else [])%list
      /\ (connected st = true ->
          effects (ping now st)
          = (effects st ++ [WsSend (ws st) (JSON_stringify message)])%list)
      /\ (connected st = false ->
          reconnecting st = false ->
          effects (ping now st) = (effects st ++ [Unhandled (Error "Not connected.")])%list)
      /\ (connected st = false ->
          reconnecting st = true ->
          effects (ping now st) = effects st
          /\ forall hook,
               afterReconnect st = Some hook ->
               is_settled hook st = false ->
               microtasks (ping now st) = microtasks st
               /\ reactions (ping now st)
                  = (reactions st ++ [(hook, KSendMessage message)])%list))
  /\ (no_pong_since_ping st -> ~ late_pong st).
Proof.
  intros Hpos Hws. cbv zeta.
  pose proof (stale_iff_late_pong st Hpos) as Hiff.
  assert (Hsend : stale st = false ->
            ping now st
            = drop (sendMessage (VObj [("op", VStr "ping")]) (set_pingAt (At now) st))).
  { intros E. unfold ping. rewrite E. reflexivity. }
  assert (Hterm : stale st = true ->
            effects (ping now st)
            = (effects st
               ++ [Console Err "[FTX] did NOT receive pong in time, reconnecting"
                     [VObj [("pingAt", stamp_value (pingAt st));
                            ("pongAt", stamp_value (pongAt st))]];
                   Console Out "[FTX] TERMINATED WS CON" []]
               ++ [WsTerminate (ws st)])%list
            /\ connected (ping now st) = false
            /\ authenticated (ping now st) = false
            /\ pingAt (ping now st) = pingAt st).
  { intros E. unfold ping. rewrite E. unfold terminate.
    change (ws (effect_ ?a (effect_ ?b st))) with (ws st).
    replace (Nat.eqb (ws st) 0) with false by (symmetry; apply Nat.eqb_neq; exact Hws).
    simpl. repeat split.
    rewrite <- app_assoc. rewrite <- app_assoc. reflexivity. }
  assert (Hcases : stale st = false ->
            pingAt (ping now st) = At now
            /\ pongAt (ping now st) = pongAt st
            /\ connected (ping now st) = connected st
            /\ (connected st = true ->
                effects (ping now st)
                = (effects st
                   ++ [WsSend (ws st) (JSON_stringify (VObj [("op", VStr "ping")]))])%list)
            /\ (connected st = false ->
                reconnecting st = false ->
                effects (ping now st)
                = (effects st ++ [Unhandled (Error "Not connected.")])%list)
            /\ (connected st = false ->
                reconnecting st = true ->
                effects (ping now st) = effects st
                /\ forall hook,
                     afterReconnect st = Some hook ->
                     is_settled hook st = false ->
                     microtasks (ping now st) = microtasks st
                     /\ reactions (ping now st)
                        = (reactions st
                           ++ [(hook, KSendMessage (VObj [("op", VStr "ping")]))])%list)).
  { intros E. rewrite (Hsend E). unfold sendMessage.
    change (connected (set_pingAt (At now) st)) with (connected st).
    change (reconnecting (set_pingAt (At now) st)) with (reconnecting st).
    change (afterReconnect (set_pingAt (At now) st)) with (afterReconnect st).
    destruct (connected st) eqn:Ec; cbn [negb].
    - repeat match goal with |- _ /\ _ => split end; intros;
        try reflexivity; try congruence; exact Ec.
    - destruct (reconnecting st) eqn:Er; cbn [negb].
      + unfold await.
        change (is_settled ?p (set_pingAt (At now) st)) with (is_settled p st).
        repeat match goal with |- _ /\ _ => split end; try discriminate.
        * destruct (afterReconnect st) as [p|]; [destruct (is_settled p st)|]; reflexivity.
        * destruct (afterReconnect st) as [p|]; [destruct (is_settled p st)|]; reflexivity.
        * destruct (afterReconnect st) as [p|]; [destruct (is_settled p st)|]; exact Ec.
        * intros _ _. split.
          -- destruct (afterReconnect st) as [p|]; [destruct (is_settled p st)|];
               reflexivity.
          -- intros hook -> ->. split; reflexivity.
      + repeat match goal with |- _ /\ _ => split end; intros;
          try reflexivity; try congruence; exact Ec. }
  split; [|split; [|split]].
  - split.
    + intros [log Hlog]. apply Hiff.
      destruct (stale st) eqn:E; [reflexivity|exfalso].
      rewrite (Hsend eq_refl) in Hlog.
      destruct (sendMessage_dropped (VObj [("op", VStr "ping")]) (set_pingAt (At now) st))
        as (_ & tail & Htail & Hcase).
      rewrite Htail in Hlog. cbn [effects set_pingAt] in Hlog.
      apply app_inv_head in Hlog.
      destruct Hcase as [-> | [-> | ->]]; destruct log as [|x [|y log]]; discriminate.
    + intros H. apply Hiff in H. destruct (Hterm H) as (He & _). eexists. exact He.
  - intros H. apply Hiff in H. destruct (Hterm H) as (He & H1 & H2 & H3).
    repeat split; try assumption.
    rewrite He, !sends_app. cbn. rewrite app_nil_r. reflexivity.
  - intros H.
    assert (E : stale st = false).
    { destruct (stale st) eqn:E; [|reflexivity]. exfalso. apply H, Hiff. reflexivity. }
    destruct (Hcases E) as (H1 & H2 & H3 & H4 & H5 & H6).
    repeat match goal with |- _ /\ _ => split end; try assumption.
    + exact (Hsend E).
    + destruct (connected st) eqn:Ec.
      * rewrite (H4 eq_refl), sends_app. reflexivity.
      * destruct (reconnecting st) eqn:Er.
        -- destruct (H6 eq_refl eq_refl) as (-> & _). symmetry. apply app_nil_r.
        -- rewrite (H5 eq_refl eq_refl), sends_app. reflexivity.
  - intros Hno (p & q & Ep & Eq & Hlt & _). specialize (Hno p q Ep Eq). lia.
Qed.

(** ** The message router *)

Lemma bad_json_throws (now : Z) (data : string) (st : Connection) :
  data <> PONG ->
  JSON_parse data = None ->
  handleWSMessage now data st
  = Threw TypeError
      (effect_ (Console Err "ftx send bad json" [VUndefined]) (set_lastMessageAt now st)).
Proof.
  intros Hne Hparse. unfold handleWSMessage.
  destruct (String.eqb_spec data PONG) as [|_]; [contradiction|].
  simpl. rewrite Hparse. reflexivity.
Qed.

Lemma listening (name : string) (names : list string) :
  existsb (String.eqb name) names = true <-> In name names.
Proof.
  rewrite existsb_exists. split.
  - intros (x & Hin & E). apply String.eqb_eq in E. subst. exact Hin.
  - intros Hin. exists name. split; [exact Hin | apply String.eqb_refl].
Qed.

(** C7, amended.  A frame that decodes to an object whose [type] is
    [update] or [partial], whose [channel] is the string [channel] and
    whose [market] is a string or absent.  Its name is [topic_key market
    channel]: the channel alone when the market is absent or the empty
    string, else market, two colons, channel.  When the name is not
    [error], or [error] has a listener, the handler returns after exactly
    one [emit], of the frame's [data] under that name.  When the name is
    [error] and nobody listens to it, [emit] throws and so does the
    handler, nothing being emitted. *)
Theorem data_frame_emits_once (now : Z) (data : string) (payload : value)
  (type channel : string) (market : option string) (st : Connection) :
  data <> PONG ->
  JSON_parse data = Some payload ->
  get payload "type" = Some (VStr type) ->
  type = "update" \/ type = "partial" ->
  field payload "market" = market_value market ->
  field payload "channel" = VStr channel ->
  let name := topic_key market channel in
  (name <> "error" \/ In "error" (listeners st) ->
   exists st',
     handleWSMessage now data st = Returned tt st'
     /\ effects st' = (effects st ++ [Emit (VStr name) (field payload "data")])%list
     /\ settled st' = settled st
     /\ subscriptions st' = subscriptions st)
  /\ (name = "error" ->
      ~ In "error" (listeners st) ->
      exists st',
        handleWSMessage now data st
        = Threw (ERR_UNHANDLED_ERROR (field payload "data")) st'
        /\ effects st' = effects st
        /\ settled st' = settled st
        /\ subscriptions st' = subscriptions st).
Proof.
  intros Hne Hparse Htype Hkind Hm Hc. cbv zeta.
  assert (E : handleWSMessage now data st
              = emit (VStr (topic_key market channel)) (field payload "data")
                  (set_lastMessageAt now st)).
  { unfold handleWSMessage.
    destruct (String.eqb_spec data PONG) as [|_]; [contradiction|].
    simpl. rewrite Hparse, Htype, Hm, Hc, toId_strings.
    destruct Hkind as [-> | ->]; reflexivity. }
  rewrite E. unfold emit. cbn [strict_eq].
  change (listeners (set_lastMessageAt now st)) with (listeners st).
  split.
  - intros Hname.
    exists (effect_ (Emit (VStr (topic_key market channel)) (field payload "data"))
              (set_lastMessageAt now st)).
    split; [|repeat split].
    destruct (String.eqb_spec (topic_key market channel) "error") as [Ek|_];
      [|reflexivity].
    destruct Hname as [Hname | Hin]; [contradiction|].
    apply listening in Hin. rewrite Hin. reflexivity.
  - intros Ek Hno. exists (set_lastMessageAt now st). split; [|repeat split].
    destruct (existsb (String.eqb "error") (listeners st)) eqn:El.
    + apply listening in El. contradiction.
    + rewrite Ek, String.eqb_refl. reflexivity.
Qed.

(** C10, amended.  For a market that is not the empty string, the pair
    (market, channel) and the market-less channel [market ++ "::" ++
    channel] are two requests with one key, [market ++ "::" ++ channel]:
    it is the name their events are emitted under, and once it is
    registered [subscribe] refuses both requests. *)
Theorem toId_collision (market channel : string) (st : Connection) :
  market <> "" ->
  let shared := VStr (market ++ "::" ++ channel) in
  toId (VStr market) (VStr channel) = Some shared
  /\ toId VUndefined (VStr (market ++ "::" ++ channel)) = Some shared
  /\ (Some market, channel) <> (None, market ++ "::" ++ channel)
  /\ (connected st = true ->
      In shared (map sub_id (subscriptions st)) ->
      subscribe channel (Some market) st
      = Returned None
          (effect_ (Console Err "refusing to channel subscribe twice"
                      [VStr market; VStr channel]) st)
      /\ subscribe (market ++ "::" ++ channel) None st
         = Returned None
             (effect_ (Console Err "refusing to channel subscribe twice"
                         [VUndefined; shared]) st)).
Proof.
  intros Hm. cbv zeta.
  assert (Hkey : toId (VStr market) (VStr channel)
                 = Some (VStr (market ++ "::" ++ channel))).
  { change (VStr market) with (market_value (Some market)).
    rewrite toId_strings, topic_key_given by exact Hm. reflexivity. }
  split; [exact Hkey|]. split; [reflexivity|]. split; [discriminate|].
  intros Hc Hin.
  assert (Hdup : existsb (strict_eq (VStr (market ++ "::" ++ channel)))
                   (map sub_id (subscriptions st)) = true).
  { apply existsb_exists. eexists. split; [exact Hin|]. apply String.eqb_refl. }
  split.
  - unfold subscribe. change (market_value (Some market)) with (VStr market).
    rewrite Hkey, Hc. cbn [negb].
    unfold subscribe_registered. rewrite Hdup. reflexivity.
  - unfold subscribe. rewrite (toId_strings None), Hc. cbn [negb topic_key].
    unfold subscribe_registered. rewrite Hdup. reflexivity.
Qed.

End Properties.

(** ** The registry *)

Lemma strict_eq_string (s : string) (v : value) :
  strict_eq (VStr s) v = true <-> v = VStr s.
Proof.
  destruct v; simpl; split; try discriminate.
  - intros H. apply String.eqb_eq in H. congruence.
  - intros [= ->]. apply String.eqb_refl.
Qed.

Lemma includes_string (s : string) (ids : list value) :
  existsb (strict_eq (VStr s)) ids = true <-> In (VStr s) ids.
Proof.
  rewrite existsb_exists. split.
  - intros (v & Hin & Heq). apply strict_eq_string in Heq. subst. exact Hin.
  - intros Hin. exists (VStr s). split; [exact Hin|]. apply strict_eq_string. reflexivity.
Qed.

Lemma update_middle {A : Type} (pre rest : list A) (x y : A) :
  update (length pre) y (pre ++ x :: rest) = (pre ++ y :: rest)%list.
Proof. induction pre as [|a l IH]; simpl; [reflexivity|]. rewrite IH. reflexivity. Qed.

Lemma nth_error_middle {A : Type} (pre rest : list A) (x : A) :
  nth_error (pre ++ x :: rest) (length pre) = Some x.
Proof. induction pre as [|a l IH]; simpl; [reflexivity|exact IH]. Qed.

Section Registry.

Context {ext : Externals}.

Lemma _subscribe_connected (pre rest : list Sub) (sub : Sub) (st : Connection) :
  connected st = true ->
  subscriptions st = (pre ++ sub :: rest)%list ->
  _subscribe (length pre) st
  = ws_send (JSON_stringify (subscribe_message sub))
      (set_subscriptions (pre ++ signalled (promises st) sub :: rest)
         (set_promises (S (promises st)) st)).
Proof.
  intros Hc Hs. unfold _subscribe. rewrite Hs, nth_error_middle.
  unfold new_promise. cbv beta iota zeta. cbn [subscriptions set_promises].
  rewrite Hs, update_middle.
  unfold sendMessage. cbn [connected set_subscriptions set_promises].
  rewrite Hc. reflexivity.
Qed.

Lemma subscribe_connected (channel : string) (market : option string) (st : Connection) :
  connected st = true ->
  subscribe channel market st
  = subscribe_registered (VStr (topic_key market channel)) (VStr channel)
      (market_value market) st.
Proof.
  intros Hc. unfold subscribe. rewrite toId_strings, Hc. reflexivity.
Qed.

Lemma subscribe_registered_new (id channel market : value) (st : Connection) :
  connected st = true ->
  existsb (strict_eq id) (map sub_id (subscriptions st)) = false ->
  let sub := {| sub_id := id; sub_channel := channel; sub_market := market;
                sub_doneHook := None; sub_done := None |} in
  subscribe_registered id channel market st
  = Returned (Some (promises st))
      (ws_send (JSON_stringify (subscribe_message sub))
         (set_subscriptions (subscriptions st ++ [signalled (promises st) sub])
            (set_promises (S (promises st)) st))).
Proof.
  intros Hc Hnew sub. unfold subscribe_registered. rewrite Hnew.
  cbv zeta.
  rewrite (_subscribe_connected (subscriptions st) [] sub); [|exact Hc|reflexivity].
  cbn [subscriptions ws_send effect_ set_effects set_subscriptions set_promises].
  rewrite nth_error_middle. reflexivity.
Qed.

Lemma subscribe_all_cons (c : string * option string)
  (calls : list (string * option string)) (st : Connection) :
  subscribe_all (c :: calls) st = subscribe_all calls (drop (subscribe (fst c) (snd c) st)).
Proof. reflexivity. Qed.

Lemma subscribe_duplicate (channel : string) (market : option string) (st : Connection) :
  connected st = true ->
  In (VStr (topic_key market channel)) (ids st) ->
  subscribe channel market st
  = Returned None
      (effect_ (Console Err "refusing to channel subscribe twice"
                  [market_value market; VStr channel]) st).
Proof.
  intros Hc Hin. rewrite subscribe_connected by exact Hc.
  unfold subscribe_registered.
  replace (existsb _ _) with true by (symmetry; apply includes_string; exact Hin).
  reflexivity.
Qed.

Lemma subscribe_step (c : string * option string) (st : Connection) :
  connected st = true ->
  let st' := drop (subscribe (fst c) (snd c) st) in
  connected st' = true
  /\ ws st' = ws st
  /\ ((In (key_of c) (ids st)
       /\ subscriptions st' = subscriptions st
       /\ sends (effects st') = sends (effects st))
      \/ (~ In (key_of c) (ids st)
          /\ exists sub,
               sub_id sub = key_of c
               /\ subscriptions st' = (subscriptions st ++ [sub])%list
               /\ sends (effects st')
                  = (sends (effects st)
                     ++ [(ws st, JSON_stringify (subscribe_message sub))])%list)).
Proof.
  intros Hc. destruct c as [channel market]. cbn [fst snd]. cbv zeta.
  destruct (existsb (strict_eq (key_of (channel, market))) (ids st)) eqn:E.
  - apply includes_string in E.
    rewrite subscribe_duplicate by assumption. cbn [drop].
    split; [exact Hc|]. split; [reflexivity|]. left.
    split; [exact E|]. split; [reflexivity|].
    cbn [effects effect_ set_effects]. rewrite sends_app. apply app_nil_r.
  - rewrite subscribe_connected by exact Hc.
    rewrite subscribe_registered_new by assumption. cbn [drop].
    split; [exact Hc|]. split; [reflexivity|]. right. split.
    + intros Hin. unfold key_of in *. cbn [fst snd] in *.
      apply includes_string in Hin. rewrite E in Hin. discriminate.
    + eexists. split; [|split].
      2: reflexivity.
      * reflexivity.
      * cbn [effects ws_send effect_ set_effects set_subscriptions set_promises ws].
        rewrite sends_app. reflexivity.
Qed.

(** C3, amended.  Calls of [subscribe] on an open connection whose
    registry has no key twice: afterwards the registry has exactly one
    entry for each key [toId] gives to an entry it had or to a call;
    every entry added was sent once, in the order of the calls; and a
    call whose key is registered returns [undefined] after a line on the
    console, with no entry added and nothing sent. *)
Theorem subscribe_registers_each_key_once
  (calls : list (string * option string)) (st : Connection) :
  connected st = true ->
  NoDup (ids st) ->
  let st' := subscribe_all calls st in
  NoDup (ids st')
  /\ (forall k, In k (ids st') <-> In k (ids st) \/ In k (map key_of calls))
  /\ (exists added,
        subscriptions st' = (subscriptions st ++ added)%list
        /\ sends (effects st')
           = (sends (effects st)
              ++ map (fun sub => (ws st, JSON_stringify (subscribe_message sub))) added)%list)
  /\ (forall channel market s,
        connected s = true ->
        In (key_of (channel, market)) (ids s) ->
        subscribe channel market s
        = Returned None
            (effect_ (Console Err "refusing to channel subscribe twice"
                        [market_value market; VStr channel]) s)).
Proof.
  intros Hc Hnd. cbv zeta.
  split; [|split; [|split]].
  4: { intros channel market s Hs Hin. apply subscribe_duplicate; assumption. }
  all: revert st Hc Hnd; induction calls as [|c calls IH]; intros st Hc Hnd.
  - exact Hnd.
  - rewrite subscribe_all_cons.
    destruct (subscribe_step c st Hc) as (Hc' & _ & [(_ & Hs & _) | (Hnew & sub & Hid & Hs & _)]).
    + apply IH; [exact Hc'|]. unfold ids. rewrite Hs. exact Hnd.
    + apply IH; [exact Hc'|]. unfold ids. rewrite Hs, map_app. cbn [map].
      rewrite Hid. apply NoDup_app; [exact Hnd|repeat constructor; intros []|].
      intros k Hk [<-|[]]. exact (Hnew Hk).
  - intros k. cbn. tauto.
  - intros k. rewrite subscribe_all_cons. cbn [map].
    destruct (subscribe_step c st Hc) as (Hc' & _ & [(Hin & Hs & _) | (Hnew & sub & Hid & Hs & _)]).
    + assert (Hnd' : NoDup (ids (drop (subscribe (fst c) (snd c) st)))).
      { unfold ids. rewrite Hs. exact Hnd. }
      rewrite (IH _ Hc' Hnd' k). unfold ids at 1. rewrite Hs. fold (ids st).
      cbn [In]. split; [tauto|]. intros [H|[<-|H]]; auto.
    + assert (Hnd' : NoDup (ids (drop (subscribe (fst c) (snd c) st)))).
      { unfold ids. rewrite Hs, map_app. cbn [map]. rewrite Hid.
        apply NoDup_app; [exact Hnd|repeat constructor; intros []|].
        intros k' Hk [<-|[]]. exact (Hnew Hk). }
      rewrite (IH _ Hc' Hnd' k). unfold ids at 1. rewrite Hs, map_app, in_app_iff.
      fold (ids st). cbn [map In]. rewrite Hid. tauto.
  - exists []. split; cbn; rewrite app_nil_r; reflexivity.
  - rewrite subscribe_all_cons.
    destruct (subscribe_step c st Hc) as (Hc' & Hws & [(Hin & Hs & He) | (Hnew & sub & Hid & Hs & He)]).
    + assert (Hnd' : NoDup (ids (drop (subscribe (fst c) (snd c) st)))).
      { unfold ids. rewrite Hs. exact Hnd. }
      destruct (IH _ Hc' Hnd') as (added & Ha & Hb).
      exists added. rewrite Ha, Hb, Hs, He, Hws. split; reflexivity.
    + assert (Hnd' : NoDup (ids (drop (subscribe (fst c) (snd c) st)))).
      { unfold ids. rewrite Hs, map_app. cbn [map]. rewrite Hid.
        apply NoDup_app; [exact Hnd|repeat constructor; intros []|].
        intros k' Hk [<-|[]]. exact (Hnew Hk). }
      destruct (IH _ Hc' Hnd') as (added & Ha & Hb).
      exists (sub :: added).
      rewrite Ha, Hb, Hs, He, Hws. cbn [map]. rewrite <- !app_assoc. split; reflexivity.
Qed.

End Registry.

(** ** The replay *)

Lemma renew_fresh (subs : list Sub) (p : nat) (sub : Sub) :
  In sub (renew p subs) ->
  exists q, sub_done sub = Some q /\ sub_doneHook sub = Some q /\ (p <= q)%nat.
Proof.
  revert p. induction subs as [|s subs IH]; intros p; [intros []|].
  intros [<- | Hin].
  - exists p. repeat split. lia.
  - destruct (IH _ Hin) as (q & H1 & H2 & H3). exists q. repeat split; try assumption. lia.
Qed.

Lemma is_settled_resolve (q p : nat) (st : Connection) :
  is_settled q (resolve p st) = is_settled q st || Nat.eqb q p.
Proof.
  unfold resolve. destruct (is_settled p st) eqn:E.
  - destruct (Nat.eqb_spec q p) as [->|]; [rewrite E; reflexivity|].
    rewrite orb_false_r. reflexivity.
  - unfold is_settled. cbn. apply orb_comm.
Qed.

Lemma connection_eta (st : Connection) :
  st = {| key := key st; secret := secret st; subaccount := subaccount st;
          WSendpoint := WSendpoint st; connected := connected st;
          isReady := isReady st; authenticated := authenticated st;
          reconnecting := reconnecting st; afterReconnect := afterReconnect st;
          subscriptions := subscriptions st; lastMessageAt := lastMessageAt st;
          pingAt := pingAt st; pongAt := pongAt st; ws := ws st;
          heartbeat := heartbeat st; promises := promises st;
          settled := settled st; reactions := reactions st; opening := opening st;
          microtasks := microtasks st; timers := timers st; effects := effects st;
     listeners := listeners st |}.
Proof. destruct st; reflexivity. Qed.

Section Replay.

Context {ext : Externals}.

Lemma replay_from (todo pre : list Sub) (st : Connection) :
  connected st = true ->
  subscriptions st = (pre ++ todo)%list ->
  fold_left (fun st i => _subscribe i st) (seq (length pre) (length todo)) st
  = set_effects (effects st ++ map (resent (ws st)) todo)
      (set_subscriptions (pre ++ renew (promises st) todo)
         (set_promises (promises st + length todo) st)).
Proof.
  revert pre st. induction todo as [|sub todo IH]; intros pre st Hc Hs.
  - cbn. rewrite !app_nil_r, Nat.add_0_r. rewrite (connection_eta st) at 1.
    rewrite Hs, app_nil_r. reflexivity.
  - cbn [length seq fold_left].
    rewrite (_subscribe_connected pre todo sub st Hc Hs).
    replace (S (length pre)) with (length (pre ++ [signalled (promises st) sub]))
      by (rewrite length_app; cbn; lia).
    rewrite IH.
    + cbn. rewrite <- !app_assoc. cbn. rewrite Nat.add_succ_r. reflexivity.
    + exact Hc.
    + cbn. rewrite <- app_assoc. reflexivity.
Qed.

Lemma replay_connected (st : Connection) :
  connected st = true ->
  replay st
  = set_effects (effects st ++ map (resent (ws st)) (subscriptions st))
      (set_subscriptions (renew (promises st) (subscriptions st))
         (set_promises (promises st + length (subscriptions st)) st)).
Proof.
  intros Hc. unfold replay. apply (replay_from (subscriptions st) [] st Hc). reflexivity.
Qed.

Lemma sends_resent (socket : nat) (subs : list Sub) :
  sends (map (resent socket) subs)
  = map (fun sub => (socket, JSON_stringify (subscribe_message sub))) subs.
Proof. induction subs as [|s subs IH]; cbn; [|rewrite IH]; reflexivity. Qed.

Lemma acknowledge_keeps_older (n q : nat) (market channel : value)
  (subs : list Sub) (st : Connection) :
  (forall sub p, In sub subs -> sub_doneHook sub = Some p -> (n <= p)%nat) ->
  (q < n)%nat ->
  is_settled q (drop (acknowledge market channel subs st)) = is_settled q st.
Proof.
  intros Hhooks Hq. revert st. induction subs as [|sub subs IH]; intros st; [reflexivity|].
  cbn [acknowledge].
  assert (IH' := IH (fun s p Hin => Hhooks s p (or_intror Hin))).
  destruct (strict_eq (sub_market sub) market && strict_eq (sub_channel sub) channel);
    [|apply IH'].
  destruct (sub_doneHook sub) as [p|] eqn:Ep; [|reflexivity].
  rewrite IH', is_settled_resolve.
  specialize (Hhooks sub p (or_introl eq_refl) Ep).
  replace (Nat.eqb q p) with false by (symmetry; apply Nat.eqb_neq; lia).
  apply orb_false_r.
Qed.

Lemma acknowledge_settles (market channel : value) (subs : list Sub) (st : Connection) :
  (forall sub, In sub subs -> sub_doneHook sub <> None) ->
  exists st',
    acknowledge market channel subs st = Returned tt st'
    /\ (forall p, is_settled p st = true -> is_settled p st' = true)
    /\ (forall sub p,
          In sub subs ->
          strict_eq (sub_market sub) market = true ->
          strict_eq (sub_channel sub) channel = true ->
          sub_doneHook sub = Some p ->
          is_settled p st' = true).
Proof.
  intros Hhooks. revert st. induction subs as [|sub subs IH]; intros st.
  - exists st. split; [reflexivity|]. split; [auto|]. intros sub p [].
  - assert (IH' := IH (fun s Hin => Hhooks s (or_intror Hin))).
    cbn [acknowledge].
    destruct (strict_eq (sub_market sub) market) eqn:Em;
      [destruct (strict_eq (sub_channel sub) channel) eqn:Ec|]; cbn [andb].
    + destruct (sub_doneHook sub) as [p0|] eqn:Ep;
        [|exfalso; exact (Hhooks sub (or_introl eq_refl) Ep)].
      destruct (IH' (resolve p0 st)) as (st' & Hr & Hmono & Hall).
      exists st'. split; [exact Hr|]. split.
      * intros p Hp. apply Hmono. rewrite is_settled_resolve, Hp. reflexivity.
      * intros s p [<-|Hin] Hm Hch Hp.
        -- rewrite Ep in Hp. injection Hp as <-. apply Hmono.
           rewrite is_settled_resolve, Nat.eqb_refl. apply orb_true_r.
        -- eapply Hall; eassumption.
    + destruct (IH' st) as (st' & Hr & Hmono & Hall).
      exists st'. split; [exact Hr|]. split; [exact Hmono|].
      intros s p [<-|Hin] Hm Hch Hp; [congruence|]. eapply Hall; eassumption.
    + destruct (IH' st) as (st' & Hr & Hmono & Hall).
      exists st'. split; [exact Hr|]. split; [exact Hmono|].
      intros s p [<-|Hin] Hm Hch Hp; [congruence|]. eapply Hall; eassumption.
Qed.

Lemma handleWSMessage_keeps_older (n q : nat) (now : Z) (data : string) (st : Connection) :
  (forall sub p, In sub (subscriptions st) -> sub_doneHook sub = Some p -> (n <= p)%nat) ->
  (q < n)%nat ->
  is_settled q (drop (handleWSMessage now data st)) = is_settled q st.
Proof.
  intros Hhooks Hq. unfold handleWSMessage.
  destruct ((data =? PONG)%string && _); [reflexivity|].
  destruct (JSON_parse data) as [payload|].
  - destruct (get payload "type") as [type|]; [|reflexivity].
    destruct (strict_eq type (VStr "subscribed")).
    + rewrite (acknowledge_keeps_older n q); [reflexivity|exact Hhooks|exact Hq].
    + destruct (strict_eq type (VStr "update") || strict_eq type (VStr "partial")).
      * destruct (toId _ _); [|reflexivity].
        unfold emit. destruct (_ && _); reflexivity.
      * reflexivity.
  - reflexivity.
Qed.

(** C2, amended.  The replay on the reopened connection sends the
    [subscribe] operation of every entry of the registry again, in the
    order of the registry, and gives every entry a promise created at the
    replay in place of its [done] and of what its [doneHook] resolves.
    The next acknowledgment of an entry resolves that new promise; no
    frame received after the replay resolves a promise that existed
    before it, such as the one the first [subscribe] returned. *)
Theorem replay_renews_signals (st : Connection) :
  connected st = true ->
  let st' := replay st in
  sends (effects st')
  = (sends (effects st)
     ++ map (fun sub => (ws st, JSON_stringify (subscribe_message sub)))
          (subscriptions st))%list
  /\ subscriptions st' = renew (promises st) (subscriptions st)
  /\ (forall sub, In sub (subscriptions st') ->
      exists p, sub_done sub = Some p /\ sub_doneHook sub = Some p
                /\ (promises st <= p)%nat)
  /\ (forall q, is_settled q st' = is_settled q st)
  /\ (forall now data q,
        (q < promises st)%nat ->
        is_settled q (drop (handleWSMessage now data st')) = is_settled q st)
  /\ (forall now data payload sub p,
        data <> PONG ->
        JSON_parse data = Some payload ->
        get payload "type" = Some (VStr "subscribed") ->
        In sub (subscriptions st') ->
        strict_eq (sub_market sub) (field payload "market") = true ->
        strict_eq (sub_channel sub) (field payload "channel") = true ->
        sub_done sub = Some p ->
        is_settled p (drop (handleWSMessage now data st')) = true).
Proof.
  intros Hc. cbv zeta. rewrite (replay_connected st Hc).
  cbn [effects subscriptions set_effects set_subscriptions set_promises].
  split; [rewrite sends_app, sends_resent; reflexivity|].
  split; [reflexivity|].
  split; [intros sub Hin; exact (renew_fresh _ _ _ Hin)|].
  split; [reflexivity|].
  split.
  - intros now data q Hq.
    rewrite (handleWSMessage_keeps_older (promises st) q); [reflexivity| |exact Hq].
    cbn [subscriptions set_effects set_subscriptions set_promises].
    intros sub p Hin Hp. destruct (renew_fresh _ _ _ Hin) as (p' & _ & Hp' & Hle).
    congruence.
  - intros now data payload sub p Hne Hparse Htype Hin Hm Hch Hdone.
    unfold handleWSMessage.
    destruct (String.eqb_spec data PONG) as [|_]; [contradiction|].
    cbn [andb]. rewrite Hparse, Htype.
    change (strict_eq (VStr "subscribed") (VStr "subscribed")) with true. cbv iota.
    match goal with
    | |- context [acknowledge ?m ?c ?subs ?s] =>
        destruct (acknowledge_settles m c subs s) as (st' & Hr & _ & Hall)
    end.
    + cbn [subscriptions set_effects set_subscriptions set_promises set_lastMessageAt].
      intros s Hs E. destruct (renew_fresh _ _ _ Hs) as (p' & _ & Hp' & _). congruence.
    + rewrite Hr. cbn [drop].
      cbn [subscriptions set_effects set_subscriptions set_promises set_lastMessageAt] in Hall.
      destruct (renew_fresh _ _ _ Hin) as (p' & Hd & Hp' & _).
      apply (Hall sub p Hin Hm Hch). congruence.
Qed.

End Replay.

(** ** Lists, promises and fields *)

Lemma filter_none {A : Type} (f : A -> bool) (l : list A) :
  Forall (fun x => f x = false) l -> filter f l = [].
Proof. induction 1 as [|x l Hx _ IH]; cbn; [|rewrite Hx, IH]; reflexivity. Qed.

Lemma filter_all {A : Type} (f : A -> bool) (l : list A) :
  Forall (fun x => f x = true) l -> filter f l = l.
Proof. induction 1 as [|x l Hx _ IH]; cbn; [|rewrite Hx, IH]; reflexivity. Qed.

Lemma run_app {ext : Externals} (fuel : nat) (a b : list (Z * event)) (st : Connection) :
  run fuel (a ++ b) st = run fuel b (run fuel a st).
Proof.
  revert st. induction a as [|[t e] a IH]; intros st; [reflexivity|].
  cbn [app run]. apply IH.
Qed.

Lemma existsb_none (p : nat) (l : list nat) :
  Forall (fun q => q <> p) l -> existsb (Nat.eqb p) l = false.
Proof.
  induction 1 as [|q l Hq _ IH]; cbn; [reflexivity|].
  rewrite IH. destruct (Nat.eqb_spec p q); [congruence|reflexivity].
Qed.

Lemma filter_queued {A : Type} (p q : nat) (f : A -> cont) (l : list A) :
  filter (fun r => Nat.eqb (fst r) q) (map (fun c => (p, f c)) l)
  = if Nat.eqb p q then map (fun c => (p, f c)) l else [].
Proof.
  induction l as [|x l IH]; cbn [map filter fst]; [destruct (Nat.eqb p q); reflexivity|].
  rewrite IH. destruct (Nat.eqb p q); reflexivity.
Qed.

Lemma filter_not_queued {A : Type} (p q : nat) (f : A -> cont) (l : list A) :
  filter (fun r => negb (Nat.eqb (fst r) q)) (map (fun c => (p, f c)) l)
  = if Nat.eqb p q then [] else map (fun c => (p, f c)) l.
Proof.
  induction l as [|x l IH]; cbn [map filter fst]; [destruct (Nat.eqb p q); reflexivity|].
  rewrite IH. destruct (Nat.eqb p q); reflexivity.
Qed.

Lemma filter_older (bound q : nat) (l : list (nat * cont)) :
  Forall (fun r => (fst r < bound)%nat) l ->
  (bound <= q)%nat ->
  filter (fun r => Nat.eqb (fst r) q) l = []
  /\ filter (fun r => negb (Nat.eqb (fst r) q)) l = l.
Proof.
  intros Hl Hq. split.
  - apply filter_none. eapply Forall_impl; [|exact Hl]. cbn. intros r Hr.
    apply Nat.eqb_neq. lia.
  - apply filter_all. eapply Forall_impl; [|exact Hl]. cbn. intros r Hr.
    apply negb_true_iff, Nat.eqb_neq. lia.
Qed.

Lemma resolve_pending (p : nat) (st : Connection) :
  is_settled p st = false ->
  resolve p st
  = set_settled (p :: settled st)
      (set_reactions (filter (fun r => negb (Nat.eqb (fst r) p)) (reactions st))
         (set_microtasks
            (microtasks st
             ++ map snd (filter (fun r => Nat.eqb (fst r) p) (reactions st))) st)).
Proof. intros H. unfold resolve. rewrite H. reflexivity. Qed.

Lemma resolve_settled (p : nat) (st : Connection) :
  is_settled p st = true -> resolve p st = st.
Proof. intros H. unfold resolve. rewrite H. reflexivity. Qed.

Lemma renew_ids (p : nat) (subs : list Sub) :
  map sub_id (renew p subs) = map sub_id subs.
Proof.
  revert p. induction subs as [|sub subs IH]; intros p; cbn; [|rewrite IH]; reflexivity.
Qed.

(** Every assignment to a field and every read of a field, worked out on
    a record whose fields are known. *)
Ltac fields :=
  cbv [set_connected set_isReady set_authenticated set_reconnecting set_afterReconnect
       set_subscriptions set_lastMessageAt set_pingAt set_pongAt set_ws set_heartbeat
       set_promises set_settled set_reactions set_opening set_microtasks set_timers
       set_effects set_listeners effect_ ws_send
       key secret subaccount WSendpoint connected isReady authenticated reconnecting
       afterReconnect subscriptions lastMessageAt pingAt pongAt ws heartbeat promises
       settled reactions opening microtasks timers effects listeners].

(** ** Reconnection *)

Section Reconnect.

Context {ext : Externals}.

Lemma drain_empty (fuel : nat) (now : Z) (st : Connection) :
  microtasks st = [] -> drain fuel now st = st.
Proof. intros H. destruct fuel; cbn; [|rewrite H]; reflexivity. Qed.

Lemma drain_job (fuel : nat) (now : Z) (k : cont) (rest : list cont) (st : Connection) :
  microtasks st = k :: rest ->
  drain (S fuel) now st = drain fuel now (resume now k (set_microtasks rest st)).
Proof. intros H. cbn [drain]. rewrite H. reflexivity. Qed.

(** While the connection is down and [afterReconnect] is pending, a call
    does nothing but wait for it. *)
Lemma queue_requests (fuel : nat) (hook : nat) (rs : list (Z * request)) (st : Connection) :
  connected st = false ->
  reconnecting st = true ->
  afterReconnect st = Some hook ->
  is_settled hook st = false ->
  microtasks st = [] ->
  run fuel (calls rs) st
  = set_reactions (reactions st ++ map (fun c => (hook, continuation (snd c))) rs) st.
Proof.
  revert st. induction rs as [|[t r] rs IH]; intros st Hc Hr Ha Hs Hm.
  - cbn. rewrite app_nil_r. rewrite (connection_eta st) at 1. reflexivity.
  - cbn [calls map run fst snd].
    assert (Hturn : turn fuel t (call r) st
                    = set_reactions (reactions st ++ [(hook, continuation r)]) st).
    { unfold turn. rewrite drain_empty.
      - destruct r as [payload|channel market]; cbn [call dispatch continuation].
        + unfold sendMessage, await. rewrite Hc, Hr, Ha, Hs. reflexivity.
        + unfold subscribe, await. rewrite toId_strings, Hc, Hr, Ha, Hs. reflexivity.
      - destruct r as [payload|channel market]; cbn [call dispatch].
        + unfold sendMessage, await. rewrite Hc, Hr, Ha, Hs. exact Hm.
        + unfold subscribe, await. rewrite toId_strings, Hc, Hr, Ha, Hs. exact Hm. }
    rewrite Hturn. fold (calls rs). rewrite IH by assumption.
    cbn. rewrite <- app_assoc. reflexivity.
Qed.

Lemma onclose_closed (st : Connection) :
  microtasks st = [] ->
  timers st = [] ->
  onclose st
  = during st false false (ws st) (heartbeat st) (subscriptions st) (S (S (promises st)))
      (settled st) (reactions st) (opening st) [] [KReconnectWaited (promises st)]
      (closed_log st).
Proof.
  intros Hjobs Htimers. destruct st. cbn in Hjobs, Htimers. subst.
  unfold onclose, reconnect, new_promise, drop, during, closed_log. fields.
  rewrite <- app_assoc. reflexivity.
Qed.

Lemma queue_during (st : Connection) (fuel : nat) (auth : bool) (socket : nat)
  (beat : option nat) (subs : list Sub) (created : nat) (done : list nat)
  (waiting dialing : list (nat * cont)) (sleeping : list cont) (log : list effect)
  (rs : list (Z * request)) :
  existsb (Nat.eqb (promises st)) done = false ->
  run fuel (calls rs)
    (during st false auth socket beat subs created done waiting dialing [] sleeping log)
  = during st false auth socket beat subs created done
      (waiting ++ map (fun c => (promises st, continuation (snd c))) rs)
      dialing [] sleeping log.
Proof.
  intros Hpending.
  rewrite (queue_requests fuel (promises st)); [reflexivity ..|exact Hpending|reflexivity].
Qed.

Lemma timeout_dials (st : Connection) (t : Z) (socket : nat) (beat : option nat)
  (subs : list Sub) (created : nat) (done : list nat)
  (waiting dialing : list (nat * cont)) (log : list effect) :
  dispatch t Timeout
    (during st false false socket beat subs created done waiting dialing []
       [KReconnectWaited (promises st)] log)
  = during st false false (S socket) (Some (S socket)) subs created done waiting
      (dialing ++ [(S socket, KConnect (Some (KReconnectConnected (promises st))))])
      [] []
      (log ++ [Console Out "[FTX] RECONNECTING..." [];
               NewWebSocket ("wss://" ++ WSendpoint st); SetInterval (S socket)]).
Proof.
  destruct st. unfold dispatch, during, resume, connect, _connect, drop. fields.
  rewrite <- !app_assoc. reflexivity.
Qed.

Lemma onopen_during (st : Connection) (auth : bool) (socket : nat) (beat : option nat)
  (subs : list Sub) (created : nat) (done : list nat)
  (waiting dialing : list (nat * cont)) (k : cont) (sleeping : list cont)
  (log : list effect) :
  existsb (Nat.eqb (S (promises st))) done = false ->
  Forall (fun r => (fst r < S (promises st))%nat) waiting ->
  Forall (fun o => (fst o < socket)%nat) dialing ->
  onopen socket
    (during st false auth socket beat subs created done waiting
       (dialing ++ [(socket, k)]) [] sleeping log)
  = during st true auth socket beat subs created (S (promises st) :: done) waiting
      dialing [k] sleeping log.
Proof.
  intros Hpending Hwaiting Hdialing.
  destruct (filter_older _ (S (promises st)) _ Hwaiting (Nat.le_refl _)) as [Hw1 Hw2].
  destruct (filter_older _ socket _ Hdialing (Nat.le_refl _)) as [Hd1 Hd2].
  unfold onopen.
  rewrite (resolve_pending (S (promises st))) by exact Hpending.
  destruct st. unfold during in *. fields. cbn [promises] in *.
  rewrite Hw1, Hw2, !filter_app, Hd1, Hd2. cbn [filter fst].
  rewrite Nat.eqb_refl. cbn [negb map snd app]. rewrite app_nil_r. reflexivity.
Qed.

Lemma connect_job (st : Connection) (t : Z) (k : cont) (socket : nat)
  (beat : option nat) (subs : list Sub) (created : nat) (done : list nat)
  (waiting dialing : list (nat * cont)) (sleeping : list cont) (log : list effect) :
  resume t (KConnect (Some k))
    (during st true false socket beat subs created done waiting dialing [] sleeping log)
  = during st true (logged_in st) socket beat subs created done waiting dialing [k]
      sleeping (log ++ login_log socket t st).
Proof.
  destruct st. unfold during, logged_in, login_log, resume. fields.
  destruct (truthy key0); cbn [andb].
  - unfold authenticate, authenticate_connected, sendMessage, drop, enqueue. fields.
    cbn [negb]. destruct secret0; reflexivity.
  - unfold enqueue. fields. rewrite app_nil_r. reflexivity.
Qed.

Lemma replay_job (st : Connection) (t : Z) (auth : bool) (socket : nat)
  (beat : option nat) (subs : list Sub) (created : nat) (done : list nat)
  (waiting dialing : list (nat * cont)) (sleeping : list cont) (log : list effect) :
  existsb (Nat.eqb (promises st)) done = false ->
  existsb (Nat.eqb (S (promises st))) done = true ->
  resume t (KReconnectConnected (promises st))
    (during st true auth socket beat subs created done waiting dialing [] sleeping log)
  = during st true auth socket beat (renew created subs) (created + length subs)
      (promises st :: done)
      (filter (fun r => negb (Nat.eqb (fst r) (promises st))) waiting) dialing
      (map snd (filter (fun r => Nat.eqb (fst r) (promises st)) waiting)) sleeping
      (log ++ map (resent socket) subs).
Proof.
  intros Hpending Hready. unfold resume.
  rewrite (resolve_pending (promises st)) by exact Hpending.
  rewrite (resolve_settled (S (promises st))).
  - rewrite replay_connected by reflexivity. reflexivity.
  - unfold is_settled. cbn -[Nat.eqb]. rewrite Hready. apply orb_true_r.
Qed.

(** The waiting calls go on, on an open connection. *)
Lemma drain_queued (now : Z) (rs : list request) (fuel : nat) (st : Connection) :
  connected st = true ->
  microtasks st = map continuation rs ->
  (length rs <= fuel)%nat ->
  let st' := drain fuel now st in
  sends (effects st') = (sends (effects st) ++ queued_frames (ws st) (ids st) rs)%list
  /\ microtasks st' = []
  /\ connected st' = true.
Proof.
  revert fuel st. induction rs as [|r rs IH]; intros fuel st Hc Hm Hf; cbv zeta.
  - rewrite drain_empty by exact Hm. cbn. rewrite app_nil_r. auto.
  - destruct fuel as [|fuel]; [cbn in Hf; lia|].
    cbn [map] in Hm. rewrite (drain_job _ _ _ _ _ Hm).
    assert (Hf' : (length rs <= fuel)%nat) by (cbn in Hf; lia).
    destruct r as [payload|channel market]; cbn [continuation resume queued_frames].
    + destruct (IH fuel (ws_send (JSON_stringify payload) (set_microtasks (map continuation rs) st)))
        as (He & Hq & Hc'); [exact Hc|reflexivity|exact Hf'|].
      rewrite He, Hq, Hc'. cbn [effects ws_send effect_ set_effects set_microtasks ws ids subscriptions].
      rewrite sends_app. cbn. rewrite <- app_assoc. auto.
    + set (st0 := set_microtasks (map continuation rs) st).
      change (ids st) with (ids st0). change (ws st) with (ws st0).
      change (effects st) with (effects st0).
      assert (Hc0 : connected st0 = true) by exact Hc.
      assert (Hm0 : microtasks st0 = map continuation rs) by reflexivity.
      clearbody st0. clear Hm Hc st.
      destruct (existsb (strict_eq (VStr (topic_key market channel))) (ids st0)) eqn:E.
      * unfold subscribe_registered. unfold ids in E. rewrite E. cbn [drop].
        destruct (IH fuel (effect_ (Console Err "refusing to channel subscribe twice"
                                      [market_value market; VStr channel]) st0))
          as (He & Hq & Hc'); [exact Hc0|exact Hm0|exact Hf'|].
        rewrite He, Hq, Hc'. cbn [effects effect_ set_effects ws ids subscriptions].
        rewrite sends_app. cbn. rewrite app_nil_r. auto.
      * rewrite subscribe_registered_new by assumption. cbn [drop].
        match goal with
        | |- context [drain fuel now ?s] =>
            destruct (IH fuel s) as (He & Hq & Hc'); [exact Hc0|exact Hm0|exact Hf'|]
        end.
        rewrite He, Hq, Hc'. unfold ids.
        cbn [effects ws_send effect_ set_effects set_subscriptions set_promises ws
             subscriptions].
        rewrite sends_app, map_app. cbn. rewrite <- app_assoc. auto.
Qed.

(** They leave the timers, the sockets and the promises as they are. *)
Lemma drain_queued_keeps (now : Z) (rs : list request) (fuel : nat) (st : Connection) :
  connected st = true ->
  microtasks st = map continuation rs ->
  (length rs <= fuel)%nat ->
  let st' := drain fuel now st in
  timers st' = timers st
  /\ opening st' = opening st
  /\ reactions st' = reactions st
  /\ settled st' = settled st
  /\ ws st' = ws st
  /\ (promises st <= promises st')%nat.
Proof.
  revert fuel st. induction rs as [|r rs IH]; intros fuel st Hc Hm Hf; cbv zeta.
  - rewrite drain_empty by exact Hm. repeat split. lia.
  - destruct fuel as [|fuel]; [cbn in Hf; lia|].
    cbn [map] in Hm. rewrite (drain_job _ _ _ _ _ Hm).
    assert (Hf' : (length rs <= fuel)%nat) by (cbn in Hf; lia).
    destruct r as [payload|channel market]; cbn [continuation resume].
    + destruct (IH fuel (ws_send (JSON_stringify payload)
                           (set_microtasks (map continuation rs) st)))
        as (H1 & H2 & H3 & H4 & H5 & H6); [exact Hc|reflexivity|exact Hf'|].
      rewrite H1, H2, H3, H4, H5. repeat split. exact H6.
    + set (st0 := set_microtasks (map continuation rs) st).
      assert (Hc0 : connected st0 = true) by exact Hc.
      assert (Hm0 : microtasks st0 = map continuation rs) by reflexivity.
      destruct (existsb (strict_eq (VStr (topic_key market channel))) (ids st0)) eqn:E.
      * unfold subscribe_registered. unfold ids in E. rewrite E. cbn [drop].
        destruct (IH fuel (effect_ (Console Err "refusing to channel subscribe twice"
                                      [market_value market; VStr channel]) st0))
          as (H1 & H2 & H3 & H4 & H5 & H6); [exact Hc0|exact Hm0|exact Hf'|].
        rewrite H1, H2, H3, H4, H5. repeat split. exact H6.
      * rewrite subscribe_registered_new by assumption. cbn [drop].
        match goal with
        | |- context [drain fuel now ?s] =>
            destruct (IH fuel s) as (H1 & H2 & H3 & H4 & H5 & H6);
              [exact Hc0|exact Hm0|exact Hf'|]
        end.
        rewrite H1, H2, H3, H4, H5. repeat split.
        cbn in H6. cbn. lia.
Qed.

Lemma run_event (fuel : nat) (t : Z) (e : event) (rest : list (Z * event))
  (s : Connection) :
  run fuel ((t, e) :: rest) s = run fuel rest (drain fuel t (dispatch t e s)).
Proof. reflexivity. Qed.

Lemma run_last (fuel : nat) (t : Z) (e : event) (s : Connection) :
  run fuel [(t, e)] s = drain fuel t (dispatch t e s).
Proof. reflexivity. Qed.

Lemma dispatch_close (t : Z) (s : Connection) : dispatch t Close s = onclose s.
Proof. reflexivity. Qed.

Lemma dispatch_open (t : Z) (socket : nat) (s : Connection) :
  dispatch t (Open socket) s = onopen socket s.
Proof. reflexivity. Qed.

Lemma drain_during (st : Connection) (fuel : nat) (t : Z) (up auth : bool)
  (socket : nat) (beat : option nat) (subs : list Sub) (created : nat)
  (done : list nat) (waiting dialing : list (nat * cont)) (k : cont)
  (jobs sleeping : list cont) (log : list effect) :
  drain (S fuel) t
    (during st up auth socket beat subs created done waiting dialing (k :: jobs)
       sleeping log)
  = drain fuel t
      (resume t k
         (during st up auth socket beat subs created done waiting dialing jobs
            sleeping log)).
Proof. reflexivity. Qed.

Lemma sends_login_log (socket : nat) (t : Z) (st : Connection) :
  sends (login_log socket t st) = login_frames socket t st.
Proof.
  unfold login_log, login_frames.
  destruct (truthy (key st)); [|reflexivity]. destruct (secret st); reflexivity.
Qed.

Lemma reconnect_reaches (st : Connection) (before after : list (Z * request))
  (t_close t_wait t_open : Z) (fuel : nat) :
  quiet st ->
  exists s,
    run (S (S fuel)) ((t_close, Close) :: calls before
                      ++ (t_wait, Timeout) :: calls after
                      ++ [(t_open, Open (S (ws st)))]) st
    = drain fuel t_open s
    /\ connected s = true
    /\ microtasks s = map continuation (map snd (before ++ after))
    /\ ws s = S (ws st)
    /\ ids s = ids st
    /\ sends (effects s)
       = (sends (effects st)
          ++ login_frames (S (ws st)) t_open st
          ++ map (fun sub => (S (ws st), JSON_stringify (subscribe_message sub)))
               (subscriptions st))%list
    /\ timers s = []
    /\ opening s = opening st
    /\ reactions s = reactions st
    /\ settled s = promises st :: S (promises st) :: settled st
    /\ promises s = (S (S (promises st)) + length (subscriptions st))%nat.
Proof.
  intros (Hjobs & Htimers & Hopening & Hsettled & Hreactions).
  assert (Hhook : existsb (Nat.eqb (promises st)) (settled st) = false).
  { apply existsb_none. eapply Forall_impl; [|exact Hsettled]. cbn. intros; lia. }
  assert (Hready : existsb (Nat.eqb (S (promises st))) (settled st) = false).
  { apply existsb_none. eapply Forall_impl; [|exact Hsettled]. cbn. intros; lia. }
  set (queue := fun rs : list (Z * request) =>
                  map (fun c => (promises st, continuation (snd c))) rs).
  assert (Hqueue : forall rs, Forall (fun r => (fst r < S (promises st))%nat) (queue rs)).
  { intros rs. apply Forall_forall. intros r Hr. apply in_map_iff in Hr as (c & <- & _).
    cbn. lia. }
  assert (Hwaiting : Forall (fun r => (fst r < S (promises st))%nat)
                       ((reactions st ++ queue before) ++ queue after)).
  { rewrite !Forall_app. repeat split; try apply Hqueue.
    eapply Forall_impl; [|exact Hreactions]. cbn. intros; lia. }
  destruct (filter_older _ (promises st) _ Hreactions (Nat.le_refl _)) as [Hr1 Hr2].
  eexists. repeat match goal with |- _ /\ _ => split end.
  - rewrite run_event, dispatch_close, onclose_closed by assumption.
    rewrite drain_empty by reflexivity.
    rewrite run_app, queue_during by exact Hhook.
    rewrite run_event, timeout_dials.
    rewrite drain_empty by reflexivity.
    rewrite run_app, queue_during by exact Hhook.
    rewrite run_last, dispatch_open.
    rewrite onopen_during; [|exact Hready|exact Hwaiting|].
    2: { eapply Forall_impl; [|exact Hopening]. cbn. intros; lia. }
    rewrite drain_during, connect_job, drain_during.
    rewrite replay_job; [reflexivity| |].
    + cbn [existsb]. rewrite Hhook.
      replace (Nat.eqb (promises st) (S (promises st))) with false; [reflexivity|].
      symmetry. apply Nat.eqb_neq. lia.
    + cbn [existsb]. rewrite Nat.eqb_refl. reflexivity.
  - reflexivity.
  - cbn [microtasks during]. fold (queue before) (queue after).
    rewrite !filter_app, Hr1. unfold queue. rewrite !filter_queued, Nat.eqb_refl.
    cbn [app]. rewrite <- map_app, !map_map. reflexivity.
  - reflexivity.
  - unfold ids. cbn [subscriptions during]. apply renew_ids.
  - cbn [effects during]. unfold dialing_log, closed_log.
    rewrite !sends_app, sends_resent, sends_login_log. cbn [sends app].
    rewrite !app_nil_r, <- app_assoc. reflexivity.
  - reflexivity.
  - reflexivity.
  - cbn [reactions during]. fold (queue before) (queue after).
    rewrite !filter_app, Hr2. unfold queue. rewrite !filter_not_queued, Nat.eqb_refl.
    rewrite !app_nil_r. reflexivity.
  - reflexivity.
  - reflexivity.
Qed.

(** C5.  A close, then the timer of [reconnect], then the open of the new
    socket, with calls of [sendMessage] and [subscribe] made in between,
    while the connection is down.  On the new socket every entry the
    registry had at the close is sent again once, in the order of the
    registry, after the login frame if there is one and before every
    frame of the calls that waited; those follow in the order of the
    calls, a call of [subscribe] whose key is registered sending nothing.
    The connection is then open and quiet again. *)
Theorem reconnect_replays_before_queued (st : Connection)
  (before after : list (Z * request)) (t_close t_wait t_open : Z) (fuel : nat) :
  quiet st ->
  (2 + length before + length after <= fuel)%nat ->
  let socket := S (ws st) in
  let st' := run fuel ((t_close, Close) :: calls before
                       ++ (t_wait, Timeout) :: calls after
                       ++ [(t_open, Open socket)]) st in
  sends (effects st')
  = (sends (effects st)
     ++ login_frames socket t_open st
     ++ map (fun sub => (socket, JSON_stringify (subscribe_message sub))) (subscriptions st)
     ++ queued_frames socket (ids st) (map snd (before ++ after)))%list
  /\ connected st' = true
  /\ quiet st'.
Proof.
  intros Hquiet Hfuel. cbv zeta.
  destruct fuel as [|[|fuel]]; [cbn in Hfuel; lia ..|].
  destruct (reconnect_reaches st before after t_close t_wait t_open fuel Hquiet)
    as (s & -> & Hc & Hm & Hws & Hids & He & Ht & Ho & Hr & Hs & Hp).
  assert (Hlen : (length (map snd (before ++ after)) <= fuel)%nat).
  { rewrite length_map, length_app. cbn in Hfuel. lia. }
  destruct (drain_queued t_open (map snd (before ++ after)) fuel s Hc Hm Hlen)
    as (He' & Hm' & Hc').
  destruct (drain_queued_keeps t_open (map snd (before ++ after)) fuel s Hc Hm Hlen)
    as (Ht' & Ho' & Hr' & Hs' & Hws' & Hp').
  destruct Hquiet as (_ & _ & Hopening & Hsettled & Hreactions).
  split; [|split; [exact Hc'|]].
  - rewrite He', He, Hws, Hids.
    rewrite <- app_assoc. f_equal. rewrite <- app_assoc. reflexivity.
  - unfold quiet. rewrite Hm', Ht', Ho', Hr', Hs', Hws', Ho, Hr, Hs, Hws.
    split; [reflexivity|]. split; [exact Ht|]. split; [|split].
    + eapply Forall_impl; [|exact Hopening]. cbn. intros; lia.
    + repeat constructor; try lia.
      eapply Forall_impl; [|exact Hsettled]. cbn. intros; lia.
    + eapply Forall_impl; [|exact Hreactions]. cbn. intros; lia.
Qed.

End Reconnect.

(** * Further properties *)

(** ** Topic keys of plain names *)




(** ** The router of frames *)

Section Router.

Context {ext : Externals}.

Lemma resolve_keeps (p : nat) (st : Connection) :
  effects (resolve p st) = effects st
  /\ subscriptions (resolve p st) = subscriptions st
  /\ pingAt (resolve p st) = pingAt st
  /\ pongAt (resolve p st) = pongAt st
  /\ lastMessageAt (resolve p st) = lastMessageAt st.
Proof. unfold resolve. destruct (is_settled p st); repeat split. Qed.

Lemma acknowledge_keeps (market channel : value) (subs : list Sub) (st : Connection) :
  subscriptions (drop (acknowledge market channel subs st)) = subscriptions st
  /\ pingAt (drop (acknowledge market channel subs st)) = pingAt st
  /\ pongAt (drop (acknowledge market channel subs st)) = pongAt st
  /\ lastMessageAt (drop (acknowledge market channel subs st)) = lastMessageAt st.
Proof.
  revert st. induction subs as [|sub subs IH]; intros st; cbn [acknowledge].
  - repeat split.
  - destruct (strict_eq (sub_market sub) market && strict_eq (sub_channel sub) channel);
      [|apply IH].
    destruct (sub_doneHook sub) as [p|]; [|repeat split].
    destruct (IH (resolve p st)) as (-> & -> & -> & ->).
    destruct (resolve_keeps p st) as (_ & -> & -> & -> & ->). repeat split.
Qed.

Lemma acknowledge_exact (market channel : value) (subs : list Sub) (st st' : Connection) :
  acknowledge market channel subs st = Returned tt st' ->
  effects st' = effects st
  /\ forall p,
       is_settled p st' = true
       <-> is_settled p st = true
           \/ exists sub, In sub subs
                          /\ strict_eq (sub_market sub) market = true
                          /\ strict_eq (sub_channel sub) channel = true
                          /\ sub_doneHook sub = Some p.
Proof.
  revert st. induction subs as [|sub subs IH]; intros st; cbn [acknowledge].
  - intros E. injection E as <-. split; [reflexivity|]. intros p. split; [auto|].
    intros [H | (sub & [] & _)]. exact H.
  - destruct (strict_eq (sub_market sub) market) eqn:Em;
      [destruct (strict_eq (sub_channel sub) channel) eqn:Ec|]; cbn [andb].
    + destruct (sub_doneHook sub) as [q|] eqn:Eh; [|discriminate].
      intros E. destruct (IH _ E) as (He & Hs). split.
      * rewrite He. apply resolve_keeps.
      * intros p. rewrite Hs, is_settled_resolve, orb_true_iff, Nat.eqb_eq. split.
        -- intros [[H | ->] | (s & Hin & H)].
           ++ left. exact H.
           ++ right. exists sub. cbn [In]. auto.
           ++ right. exists s. cbn [In]. tauto.
        -- intros [H | (s & [<- | Hin] & H1 & H2 & H3)].
           ++ auto.
           ++ left. right. congruence.
           ++ right. exists s. auto.
    + intros E. destruct (IH _ E) as (He & Hs). split; [exact He|].
      intros p. rewrite Hs. split.
      * intros [H | (s & Hin & H)]; [auto|]. right. exists s. cbn [In]. tauto.
      * intros [H | (s & [<- | Hin] & H1 & H2 & H3)]; [auto|congruence|].
        right. exists s. auto.
    + intros E. destruct (IH _ E) as (He & Hs). split; [exact He|].
      intros p. rewrite Hs. split.
      * intros [H | (s & Hin & H)]; [auto|]. right. exists s. cbn [In]. tauto.
      * intros [H | (s & [<- | Hin] & H1 & H2 & H3)]; [auto|congruence|].
        right. exists s. auto.
Qed.

Lemma pong_test (now : Z) (data : string) (st : Connection) :
  (data =? PONG)%string
  && js_lt (js_sub (Some now) (to_number (pingAt st))) (Some 5000) = true
  <-> data = PONG /\ in_time now st.
Proof.
  unfold in_time. rewrite andb_true_iff, String.eqb_eq.
  destruct (to_number (pingAt st)) as [p|]; cbn [js_sub js_lt].
  - rewrite Z.ltb_lt. tauto.
  - split; [intros [_ H]; discriminate | tauto].
Qed.

Lemma handleWSMessage_pong (now : Z) (st : Connection) :
  in_time now st ->
  handleWSMessage now PONG st
  = Returned tt (set_pongAt (At now) (set_lastMessageAt now st)).
Proof.
  intros H. unfold handleWSMessage.
  change (lastMessageAt (set_lastMessageAt now st)) with now.
  change (pingAt (set_lastMessageAt now st)) with (pingAt st).
  replace ((PONG =? PONG)%string
           && js_lt (js_sub (Some now) (to_number (pingAt st))) (Some 5000)) with true
    by (symmetry; apply pong_test; auto).
  reflexivity.
Qed.

Lemma handleWSMessage_parsed (now : Z) (data : string) (payload : value)
  (st : Connection) :
  ~ (data = PONG /\ in_time now st) ->
  JSON_parse data = Some payload ->
  handleWSMessage now data st
  = match get payload "type" with
    | None => Threw TypeError (set_lastMessageAt now st)
    | Some type =>
        if strict_eq type (VStr "subscribed") then
          acknowledge (field payload "market") (field payload "channel")
            (subscriptions st) (set_lastMessageAt now st)
        else if strict_eq type (VStr "update") || strict_eq type (VStr "partial") then
          match toId (field payload "market") (field payload "channel") with
          | Some id => emit id (field payload "data") (set_lastMessageAt now st)
          | None => Threw TypeError (set_lastMessageAt now st)
          end
        else
          Returned tt (effect_ (Console Out "[FTX] unhandled WS event" [payload])
                         (set_lastMessageAt now st))
    end.
Proof.
  intros H Hparse. unfold handleWSMessage.
  change (lastMessageAt (set_lastMessageAt now st)) with now.
  change (pingAt (set_lastMessageAt now st)) with (pingAt st).
  destruct ((data =? PONG)%string
            && js_lt (js_sub (Some now) (to_number (pingAt st))) (Some 5000)) eqn:E.
  - apply pong_test in E. contradiction.
  - rewrite Hparse. reflexivity.
Qed.

Lemma handleWSMessage_unparsed (now : Z) (data : string) (st : Connection) :
  ~ (data = PONG /\ in_time now st) ->
  JSON_parse data = None ->
  handleWSMessage now data st
  = Threw TypeError
      (effect_ (Console Err "ftx send bad json" [VUndefined]) (set_lastMessageAt now st)).
Proof.
  intros H Hparse. unfold handleWSMessage.
  change (lastMessageAt (set_lastMessageAt now st)) with now.
  change (pingAt (set_lastMessageAt now st)) with (pingAt st).
  destruct ((data =? PONG)%string
            && js_lt (js_sub (Some now) (to_number (pingAt st))) (Some 5000)) eqn:E.
  - apply pong_test in E. contradiction.
  - rewrite Hparse. reflexivity.
Qed.

Lemma in_time_dec (now : Z) (data : string) (st : Connection) :
  (data = PONG /\ in_time now st) \/ ~ (data = PONG /\ in_time now st).
Proof.
  destruct ((data =? PONG)%string
            && js_lt (js_sub (Some now) (to_number (pingAt st))) (Some 5000)) eqn:E.
  - left. apply pong_test. exact E.
  - right. intros H. apply pong_test in H. congruence.
Qed.

(** A [subscribed] frame, every entry of the registry having its hook:
    the promises settled after it are those settled before and the hooks
    of the entries the frame names. *)
Lemma acknowledged_exactly (now : Z) (data : string) (payload : value)
  (st : Connection) :
  ~ (data = PONG /\ in_time now st) ->
  JSON_parse data = Some payload ->
  get payload "type" = Some (VStr "subscribed") ->
  (forall sub, In sub (subscriptions st) -> sub_doneHook sub <> None) ->
  exists st',
    handleWSMessage now data st = Returned tt st'
    /\ (forall p,
          is_settled p st' = true
          <-> is_settled p st = true
              \/ exists sub, In sub (subscriptions st)
                             /\ acknowledged_by payload sub = true
                             /\ sub_doneHook sub = Some p)
    /\ effects st' = effects st
    /\ subscriptions st' = subscriptions st.
Proof.
  intros Hpong Hparse Htype Hhooks.
  rewrite (handleWSMessage_parsed now data payload st Hpong Hparse), Htype.
  cbn [strict_eq]. rewrite String.eqb_refl.
  destruct (acknowledge_settles (field payload "market") (field payload "channel")
              (subscriptions st) (set_lastMessageAt now st) Hhooks) as (st' & E & _).
  exists st'. split; [exact E|].
  destruct (acknowledge_exact _ _ _ _ _ E) as (He & Hs).
  pose proof (acknowledge_keeps (field payload "market") (field payload "channel")
                (subscriptions st) (set_lastMessageAt now st)) as (Hk & _).
  rewrite E in Hk. cbn [drop] in Hk.
  split; [|split; [exact He | exact Hk]].
  intros p. rewrite Hs. unfold acknowledged_by.
  change (is_settled p (set_lastMessageAt now st)) with (is_settled p st).
  split.
  - intros [H | (sub & Hin & H1 & H2 & H3)]; [auto|].
    right. exists sub. rewrite H1, H2. auto.
  - intros [H | (sub & Hin & H1 & H3)]; [auto|].
    apply andb_prop in H1 as [H1 H2]. right. exists sub. auto.
Qed.




Lemma frame_keeps_stamps (now : Z) (data : string) (st : Connection) :
  ~ (data = PONG /\ in_time now st) ->
  lastMessageAt (drop (handleWSMessage now data st)) = now
  /\ pingAt (drop (handleWSMessage now data st)) = pingAt st
  /\ pongAt (drop (handleWSMessage now data st)) = pongAt st.
Proof.
  intros Hpong.
  destruct (JSON_parse data) as [payload|] eqn:Hparse.
  2:{ rewrite (handleWSMessage_unparsed now data st Hpong Hparse). repeat split. }
  rewrite (handleWSMessage_parsed now data payload st Hpong Hparse).
  destruct (get payload "type") as [type|]; [|repeat split].
  destruct (strict_eq type (VStr "subscribed")).
  { destruct (acknowledge_keeps (field payload "market") (field payload "channel")
                (subscriptions st) (set_lastMessageAt now st)) as (_ & -> & -> & ->).
    repeat split. }
  destruct (strict_eq type (VStr "update") || strict_eq type (VStr "partial"));
    [|repeat split].
  destruct (toId (field payload "market") (field payload "channel")); [|repeat split].
  unfold emit. destruct (_ && _); repeat split.
Qed.

(** X3.  What a frame does to the timestamps.  Every frame records its
    arrival in [lastMessageAt], also one that makes the handler throw, and
    none changes [pingAt].  [pongAt] changes only for a pong in time, to
    the arrival time.  A pong that is not in time (5000 ms or more after
    the ping, or no tick yet) leaves [pongAt] as it was and goes to
    [JSON.parse] like any frame; decoded to [{type: 'pong'}], it is logged
    as an unhandled event. *)
Theorem pongAt_changes_only_in_time (now : Z) (data : string) (st : Connection) :
  let st' := drop (handleWSMessage now data st) in
  lastMessageAt st' = now
  /\ pingAt st' = pingAt st
  /\ (data = PONG /\ in_time now st -> pongAt st' = At now)
  /\ (~ (data = PONG /\ in_time now st) -> pongAt st' = pongAt st)
  /\ (~ in_time now st ->
      JSON_parse PONG = Some (VObj [("type", VStr "pong")]) ->
      handleWSMessage now PONG st
      = Returned tt
          (effect_ (Console Out "[FTX] unhandled WS event" [VObj [("type", VStr "pong")]])
             (set_lastMessageAt now st))).
Proof.
  cbv zeta.
  assert (Hlate : ~ in_time now st ->
            JSON_parse PONG = Some (VObj [("type", VStr "pong")]) ->
            handleWSMessage now PONG st
            = Returned tt
                (effect_ (Console Out "[FTX] unhandled WS event"
                            [VObj [("type", VStr "pong")]]) (set_lastMessageAt now st))).
  { intros Hno Hparse. rewrite (handleWSMessage_parsed now PONG _ st) by tauto || exact Hparse.
    reflexivity. }
  destruct (in_time_dec now data st) as [[-> Hin] | Hpong].
  { rewrite (handleWSMessage_pong now st Hin). cbn [drop].
    repeat match goal with |- _ /\ _ => split end; try reflexivity; tauto. }
  pose proof (frame_keeps_stamps now data st Hpong) as Hkeep.
  destruct Hkeep as (H1 & H2 & H3).
  repeat match goal with |- _ /\ _ => split end; auto. tauto.
Qed.

End Router.

(** ** Connecting *)

Section Connecting.

Context {ext : Externals}.

(** X4.  The first connection, whatever the configuration: [connect()]
    on a new object opens one socket, at [wss://] and the endpoint, and
    starts the heartbeat timer before the socket is open; once the socket
    opens the object is connected, [isReady] is resolved, and [connect]
    logs in when a key is configured.  Nothing else is done, and no job,
    timer or waiting call is left. *)
Theorem first_connection (key secret subaccount : value) (endpoint : option string)
  (t_call t_open : Z) (fuel : nat) :
  let st0 := new_Connection key secret subaccount endpoint in
  let dialing := run (S fuel) [(t_call, CallConnect)] st0 in
  let st := run (S fuel) [(t_call, CallConnect); (t_open, Open 1%nat)] st0 in
  (effects dialing = [NewWebSocket ("wss://" ++ WSendpoint st0); SetInterval 1]
   /\ connected dialing = false
   /\ heartbeat dialing = Some 1%nat)
  /\ effects st
     = ([NewWebSocket ("wss://" ++ WSendpoint st0); SetInterval 1]
        ++ login_log 1 t_open st0)%list
  /\ connected st = true
  /\ authenticated st = logged_in st0
  /\ is_settled (isReady st) st = true
  /\ ws st = 1%nat
  /\ subscriptions st = []
  /\ reactions st = []
  /\ opening st = []
  /\ quiet st.
Proof.
  cbv zeta. split; [repeat split|].
  set (st0 := new_Connection key secret subaccount endpoint).
  assert (E : run (S fuel) [(t_call, CallConnect); (t_open, Open 1%nat)] st0
              = {| key := key; secret := secret; subaccount := subaccount;
                   WSendpoint := WSendpoint st0; connected := true; isReady := 0%nat;
                   authenticated := logged_in st0;
                   reconnecting := false; afterReconnect := None; subscriptions := [];
                   lastMessageAt := 0; pingAt := Unset; pongAt := Unset;
                   ws := 1%nat; heartbeat := Some 1%nat;
                   promises := 1%nat; settled := [0%nat]; reactions := []; opening := [];
                   microtasks := []; timers := [];
                   effects := [NewWebSocket ("wss://" ++ WSendpoint st0); SetInterval 1]
                              ++ login_log 1 t_open st0;
                   listeners := [] |}).
  { unfold logged_in, login_log. subst st0.
    destruct key as [| |[|]|[|n|n]|[|c k]|items|props]; destruct secret; destruct fuel;
      reflexivity. }
  rewrite E. repeat split.
  all: try apply Forall_nil.
  apply Forall_cons; [apply Nat.lt_0_1 | apply Forall_nil].
Qed.


(** X5.  [connect()] on a connection that is open opens no socket and
    starts no timer: [_connect] returns at once.  The rest of [connect]
    still runs, in the next job, so a connection with a key logs in
    again. *)
Theorem connect_again_logs_in_again (t : Z) (fuel : nat) (st : Connection) :
  connected st = true ->
  microtasks st = [] ->
  let st' := run (S fuel) [(t, CallConnect)] st in
  effects st' = (effects st ++ login_log (ws st) t st)%list
  /\ ws st' = ws st
  /\ heartbeat st' = heartbeat st
  /\ opening st' = opening st
  /\ connected st' = true
  /\ authenticated st' = logged_in st || authenticated st
  /\ microtasks st' = [].
Proof.
  intros Hc Hm. destruct st. cbn in Hc, Hm. subst.
  unfold login_log, logged_in. fields.
  match goal with
  | |- context [truthy ?k] =>
      destruct k as [| |[|]|[|n|n]|[|c k']|items|props]
  end.
  all: match goal with
       | |- context [match ?x with VStr _ => _ | _ => _ end] => destruct x
       | _ => idtac
       end.
  all: destruct fuel; repeat split; try apply app_nil_r.
  all: symmetry; apply app_nil_r.
Qed.


End Connecting.

(** ** What the jobs leave alone *)

Lemma steady_refl (st : Connection) : steady st st.
Proof. repeat split. Qed.

Lemma steady_trans (a b c : Connection) : steady a b -> steady b c -> steady a c.
Proof.
  unfold steady.
  intros (A1 & A2 & A3 & A4 & A5 & A6 & A7 & A8) (B1 & B2 & B3 & B4 & B5 & B6 & B7 & B8).
  repeat split; congruence.
Qed.

Section Steady.

Context {ext : Externals}.

Lemma steady_resolve (p : nat) (st : Connection) : steady st (resolve p st).
Proof. unfold resolve. destruct (is_settled p st); repeat split. Qed.

Lemma steady_await (x : option nat) (k : cont) (st : Connection) :
  steady st (await x k st).
Proof.
  unfold await. destruct x as [p|]; [destruct (is_settled p st)|]; repeat split.
Qed.

Lemma steady_sendMessage (payload : value) (st : Connection) :
  steady st (drop (sendMessage payload st)).
Proof.
  unfold sendMessage.
  destruct (connected st); cbn [negb drop]; [repeat split|].
  destruct (reconnecting st); cbn [negb drop]; [apply steady_await | repeat split].
Qed.

Lemma steady__subscribe (i : nat) (st : Connection) : steady st (_subscribe i st).
Proof.
  unfold _subscribe. destruct (nth_error (subscriptions st) i) as [sub|];
    [|apply steady_refl].
  cbn [new_promise].
  eapply steady_trans; [|apply steady_sendMessage]. repeat split.
Qed.

Lemma steady_subscribe_registered (id channel market : value) (st : Connection) :
  steady st (drop (subscribe_registered id channel market st)).
Proof.
  unfold subscribe_registered.
  destruct (existsb (strict_eq id) (map sub_id (subscriptions st))); cbn [drop];
    [repeat split|].
  eapply steady_trans; [|apply steady__subscribe]. repeat split.
Qed.

Lemma steady_subscribe (channel : string) (market : option string) (st : Connection) :
  steady st (drop (subscribe channel market st)).
Proof.
  unfold subscribe. rewrite toId_strings.
  destruct (connected st); cbn [negb]; [apply steady_subscribe_registered|].
  destruct (reconnecting st); cbn [negb drop]; [apply steady_await | repeat split].
Qed.

Lemma steady_fold (l : list nat) (st : Connection) :
  steady st (fold_left (fun st i => _subscribe i st) l st).
Proof.
  revert st. induction l as [|i l IH]; intros st; cbn [fold_left].
  - apply steady_refl.
  - eapply steady_trans; [apply steady__subscribe | apply IH].
Qed.

Lemma steady_replay (st : Connection) : steady st (replay st).
Proof. apply steady_fold. Qed.

Lemma steady__connect (k : cont) (st : Connection) : steady st (_connect k st).
Proof. unfold _connect. destruct (connected st); repeat split. Qed.

Lemma steady_authenticate_connected (t : Z) (st : Connection) :
  steady st (drop (authenticate_connected t st)).
Proof.
  unfold authenticate_connected. destruct (secret st); try (repeat split; fail).
  cbn [drop]. eapply steady_trans; [apply steady_sendMessage | repeat split].
Qed.

Lemma steady_authenticate (t : Z) (st : Connection) :
  steady st (drop (authenticate t st)).
Proof.
  unfold authenticate. destruct (connected st); cbn [negb].
  - apply steady_authenticate_connected.
  - apply steady__connect.
Qed.

Lemma steady_resume (t : Z) (k : cont) (st : Connection) : steady st (resume t k st).
Proof.
  destruct k as [payload|id channel market|awaited_by| |hook|hook]; cbn [resume].
  - repeat split.
  - apply steady_subscribe_registered.
  - assert (H : steady st (if truthy (key st) then drop (authenticate t st) else st)).
    { destruct (truthy (key st)); [apply steady_authenticate | apply steady_refl]. }
    destruct awaited_by as [k|]; [|exact H].
    eapply steady_trans; [exact H | repeat split].
  - apply steady_authenticate_connected.
  - eapply steady_trans; [|apply steady__connect]. repeat split.
  - eapply steady_trans; [apply steady_resolve|].
    eapply steady_trans; [apply steady_resolve | apply steady_replay].
Qed.

Lemma steady_drain (fuel : nat) (t : Z) (st : Connection) : steady st (drain fuel t st).
Proof.
  revert st. induction fuel as [|fuel IH]; intros st; cbn [drain].
  - destruct (microtasks st); apply steady_refl.
  - destruct (microtasks st) as [|k rest]; [apply steady_refl|].
    eapply steady_trans; [|apply IH].
    eapply steady_trans; [|apply steady_resume]. repeat split.
Qed.

Lemma steady_terminate (st : Connection) : steady st (drop (terminate st)).
Proof.
  unfold terminate.
  destruct (Nat.eqb (ws (effect_ (Console Out "[FTX] TERMINATED WS CON" []) st)) 0);
    repeat split.
Qed.

Lemma steady_acknowledge (market channel : value) (subs : list Sub) (st : Connection) :
  steady st (drop (acknowledge market channel subs st)).
Proof.
  revert st. induction subs as [|sub subs IH]; intros st; cbn [acknowledge].
  - apply steady_refl.
  - destruct (strict_eq (sub_market sub) market && strict_eq (sub_channel sub) channel);
      [|apply IH].
    destruct (sub_doneHook sub) as [p|]; [|repeat split].
    eapply steady_trans; [apply steady_resolve | apply IH].
Qed.

Lemma steady_onopen (socket : nat) (st : Connection) : steady st (onopen socket st).
Proof.
  unfold onopen. eapply steady_trans; [|repeat split].
  eapply steady_trans; [|apply steady_resolve]. repeat split.
Qed.

Lemma reconnecting_handleWSMessage (t : Z) (data : string) (st : Connection) :
  reconnecting (drop (handleWSMessage t data st)) = reconnecting st.
Proof.
  destruct (in_time_dec t data st) as [[-> Hin] | Hlate].
  { rewrite (handleWSMessage_pong t st Hin). reflexivity. }
  destruct (JSON_parse data) as [payload|] eqn:Hparse.
  2:{ rewrite (handleWSMessage_unparsed t data st Hlate Hparse). reflexivity. }
  rewrite (handleWSMessage_parsed t data payload st Hlate Hparse).
  destruct (get payload "type") as [type|]; [|reflexivity].
  destruct (strict_eq type (VStr "subscribed")).
  { destruct (steady_acknowledge (field payload "market") (field payload "channel")
                (subscriptions st) (set_lastMessageAt t st)) as (_ & _ & -> & _).
    reflexivity. }
  destruct (strict_eq type (VStr "update") || strict_eq type (VStr "partial"));
    [|reflexivity].
  destruct (toId (field payload "market") (field payload "channel")); [|reflexivity].
  unfold emit. destruct (_ && _); reflexivity.
Qed.

(** Every event but the three that set them leaves the timestamps and
    the flag alone: a frame and a tick set timestamps, a close resets
    them and sets the flag, [on] adds a listener. *)
Lemma reconnecting_dispatch (t : Z) (e : event) (st : Connection) :
  reconnecting st = true -> reconnecting (dispatch t e st) = true.
Proof.
  intros H.
  assert (Hs : forall st', steady st st' -> reconnecting st' = true).
  { intros st' (_ & _ & E & _). congruence. }
  destruct e; cbn [dispatch].
  - apply Hs, steady_onopen.
  - rewrite reconnecting_handleWSMessage. exact H.
  - exact H.
  - reflexivity.
  - unfold ping. destruct (stale st).
    + apply Hs. eapply steady_trans; [|apply steady_terminate]. repeat split.
    + destruct (steady_sendMessage (VObj [("op", VStr "ping")]) (set_pingAt (At t) st))
        as (_ & _ & -> & _).
      exact H.
  - destruct (timers st) as [|k rest]; [exact H|].
    apply Hs. eapply steady_trans; [|apply steady_resume]. repeat split.
  - apply Hs. apply steady__connect.
  - apply Hs. apply steady_authenticate.
  - apply Hs. apply steady_terminate.
  - apply Hs. apply steady_sendMessage.
  - apply Hs. apply steady_subscribe.
  - exact H.
Qed.

Lemma reconnecting_run (fuel : nat) (events : list (Z * event)) (st : Connection) :
  reconnecting st = true -> reconnecting (run fuel events st) = true.
Proof.
  revert st. induction events as [|[t e] events IH]; intros st H; cbn [run]; [exact H|].
  apply IH. unfold turn.
  destruct (steady_drain fuel t (dispatch t e st)) as (_ & _ & -> & _).
  apply reconnecting_dispatch. exact H.
Qed.

(** X7.  The [reconnecting] flag is set by the first close and never
    reset: not when the reconnection is over, not by [terminate].  So
    after the first close, whatever happens then, neither [sendMessage]
    nor [subscribe] throws [Not connected.] again: on a connection that is
    down, the call waits for [afterReconnect], which is the promise of the
    last reconnection. *)
Theorem reconnecting_is_never_reset (fuel : nat) (t : Z) (events : list (Z * event))
  (st : Connection) :
  let st' := run fuel ((t, Close) :: events) st in
  reconnecting st' = true
  /\ (forall payload e s, sendMessage payload st' <> Threw e s)
  /\ (forall channel market e s, subscribe channel market st' <> Threw e s)
  /\ (connected st' = false ->
      forall payload,
        sendMessage payload st'
        = Awaits (await (afterReconnect st') (KSendMessage payload) st')).
Proof.
  cbv zeta.
  assert (H : reconnecting (run fuel ((t, Close) :: events) st) = true).
  { cbn [run]. apply reconnecting_run. unfold turn.
    destruct (steady_drain fuel t (dispatch t Close st)) as (_ & _ & -> & _).
    reflexivity. }
  remember (run fuel ((t, Close) :: events) st) as st' eqn:E. clear E.
  split; [exact H|]. split; [|split].
  - intros payload e s. unfold sendMessage. rewrite H.
    destruct (connected st'); discriminate.
  - intros channel market e s. unfold subscribe. rewrite toId_strings, H.
    destruct (connected st'); cbn [negb]; [|discriminate].
    unfold subscribe_registered. destruct (existsb _ _); discriminate.
  - intros Hc payload. unfold sendMessage. rewrite Hc, H. reflexivity.
Qed.

(** ** The window of the liveness monitor *)

Lemma timely_stamps (t t' : Z) (st st' : Connection) :
  t <= t' ->
  pingAt st' = pingAt st ->
  pongAt st' = pongAt st ->
  timely t st ->
  timely t' st'.
Proof.
  intros Ht E1 E2 (H0 & Hp & H1 & H2). unfold timely. rewrite E1, E2.
  split; [lia|]. split; [exact Hp|]. split; [|exact H2].
  intros q Hq. specialize (H1 q Hq). lia.
Qed.

Lemma timely_steady (t t' : Z) (st st' : Connection) :
  t <= t' -> steady st st' -> timely t st -> timely t' st'.
Proof.
  intros Ht (E1 & E2 & _). apply timely_stamps; assumption.
Qed.

Lemma timely_dispatch (t t' : Z) (e : event) (st : Connection) :
  t <= t' -> timely t st -> timely t' (dispatch t' e st).
Proof.
  intros Ht H.
  assert (Hs : forall st', steady st st' -> timely t' st').
  { intros st' Hst. exact (timely_steady t t' st st' Ht Hst H). }
  destruct e; cbn [dispatch].
  - apply Hs, steady_onopen.
  - destruct (in_time_dec t' data st) as [[-> Hin] | Hlate].
    + rewrite (handleWSMessage_pong t' st Hin). cbn [drop].
      destruct H as (H0 & Hp & H1 & H2).
      split; [lia|]. split; [exact Hp|]. split.
      * intros q Hq. injection Hq as <-. lia.
      * intros p q Ep Eq. injection Eq as <-.
        unfold in_time in Hin. cbn [pingAt set_pongAt set_lastMessageAt] in Ep.
        rewrite Ep in Hin. exact Hin.
    + destruct (frame_keeps_stamps t' data st Hlate) as (_ & E1 & E2).
      apply (timely_stamps t t' st); assumption.
  - apply Hs. repeat split.
  - destruct H as (H0 & _).
    split; [lia|]. split; [|split]; intros; discriminate.
  - unfold ping. destruct (stale st).
    + apply Hs. eapply steady_trans; [|apply steady_terminate]. repeat split.
    + destruct (steady_sendMessage (VObj [("op", VStr "ping")]) (set_pingAt (At t') st))
        as (E1 & E2 & _).
      destruct H as (H0 & Hp & H1 & H2). unfold timely. rewrite E1, E2.
      split; [lia|]. split; [|split].
      * intros p Ep. injection Ep as <-. lia.
      * intros q Eq. specialize (H1 q Eq). lia.
      * intros p q Ep Eq. injection Ep as <-. specialize (H1 q Eq). lia.
  - destruct (timers st) as [|k rest]; [apply Hs, steady_refl|].
    apply Hs. eapply steady_trans; [|apply steady_resume]. repeat split.
  - apply Hs. apply steady__connect.
  - apply Hs. apply steady_authenticate.
  - apply Hs. apply steady_terminate.
  - apply Hs. apply steady_sendMessage.
  - apply Hs. apply steady_subscribe.
  - apply (timely_stamps t t' st); [exact Ht | reflexivity | reflexivity | exact H].
Qed.

Lemma timely_run (fuel : nat) (t : Z) (events : list (Z * event)) (st : Connection) :
  chronological t events ->
  timely t st ->
  exists t', timely t' (run fuel events st).
Proof.
  revert t st. induction events as [|[t' e] events IH]; intros t st Hc H; cbn [run].
  - exists t. exact H.
  - destruct Hc as (Ht & Hc). apply (IH t' _ Hc). unfold turn.
    apply (timely_steady t' t' (dispatch t' e st)); [lia | apply steady_drain|].
    apply (timely_dispatch t t'); assumption.
Qed.

(** X8.  The window of the monitor.  Whatever happens to a new object,
    the events coming in the order of their times, readings of a clock
    after 1970: a pong is recorded
    only less than 5000 ms after the ping on record, and a later tick
    only moves the ping forward.  So the test of [ping] finds a late pong
    only when it came more than 2000 ms and less than 5000 ms after its
    ping: a pong that takes 5000 ms or more, or never comes, does not
    terminate the connection. *)
Theorem stale_only_between_2_and_5_seconds (key secret subaccount : value)
  (endpoint : option string) (fuel : nat) (events : list (Z * event)) :
  chronological 0 events ->
  let st := run fuel events (new_Connection key secret subaccount endpoint) in
  (forall p q, pingAt st = At p -> pongAt st = At q -> q - p < 5000)
  /\ (stale st = true ->
      exists p q,
        pingAt st = At p /\ pongAt st = At q
        /\ STALE_TIMEOUT < q - p /\ q - p < 5000).
Proof.
  intros Hc. cbv zeta.
  destruct (timely_run fuel 0 events (new_Connection key secret subaccount endpoint) Hc)
    as (t' & _ & Hpos & _ & H).
  { split; [lia|]. split; [|split]; intros; discriminate. }
  split; [exact H|].
  intros Hstale. unfold stale in Hstale.
  apply andb_prop in Hstale as [Hstale Hrtt]. apply andb_prop in Hstale as [Hset Hgt].
  destruct (pingAt (run fuel events (new_Connection key secret subaccount endpoint)))
    as [| |p] eqn:Ep; try discriminate.
  destruct (pongAt (run fuel events (new_Connection key secret subaccount endpoint)))
    as [| |q] eqn:Eq; cbn in Hgt, Hrtt; try discriminate.
  - apply Z.gtb_lt in Hgt. specialize (Hpos p eq_refl). lia.
  - exists p, q. apply Z.gtb_lt in Hrtt.
    specialize (H p q eq_refl eq_refl). auto.
Qed.

End Steady.

(** ** The registry, whatever happens *)

Lemma In_update {A : Type} (i : nat) (y z : A) (l : list A) :
  In z (update i y l) -> z = y \/ In z l.
Proof.
  revert i. induction l as [|x l IH]; intros [|i]; cbn [update In]; try tauto.
  - intros [H | H]; auto.
  - intros [H | H]; [auto|]. destruct (IH i H); auto.
Qed.

Lemma Forall_update {A : Type} (P : A -> Prop) (i : nat) (y : A) (l : list A) :
  Forall P l -> P y -> Forall P (update i y l).
Proof.
  intros Hl Hy. apply Forall_forall. intros z Hz.
  destruct (In_update i y z l Hz) as [-> | Hin]; [exact Hy|].
  rewrite Forall_forall in Hl. auto.
Qed.

Lemma map_update_same {A B : Type} (f : A -> B) (i : nat) (x y : A) (l : list A) :
  nth_error l i = Some x -> f y = f x -> map f (update i y l) = map f l.
Proof.
  revert i. induction l as [|a l IH]; intros [|i] Hn Hf; cbn in *; try discriminate.
  - injection Hn as ->. rewrite Hf. reflexivity.
  - rewrite (IH i Hn Hf). reflexivity.
Qed.

Lemma NoDup_map_update {A B : Type} (f : A -> B) (i : nat) (y : A) (l : list A) :
  NoDup (map f l) -> ~ In (f y) (map f l) -> NoDup (map f (update i y l)).
Proof.
  revert i. induction l as [|a l IH]; intros [|i] Hnd Hy; cbn [update map] in *;
    try exact Hnd.
  - inversion Hnd as [|? ? Ha Hl]; subst. constructor; [|exact Hl].
    intros H. apply Hy. right. exact H.
  - inversion Hnd as [|? ? Ha Hl]; subst. constructor.
    + intros H. apply in_map_iff in H as (z & Hz & Hin).
      destruct (In_update i y z l Hin) as [-> | Hin'].
      * apply Hy. left. symmetry. exact Hz.
      * apply Ha. rewrite <- Hz. apply in_map. exact Hin'.
    + apply IH; [exact Hl|]. intros H. apply Hy. right. exact H.
Qed.

Lemma NoDup_snoc {A : Type} (x : A) (l : list A) :
  NoDup l -> ~ In x l -> NoDup (l ++ [x]).
Proof.
  intros Hl Hx. induction l as [|a l IH]; cbn.
  - constructor; [intros []|constructor].
  - inversion Hl as [|? ? Ha Hl']; subst. constructor.
    + intros H. apply in_app_or in H as [H | [H | []]]; [auto|].
      apply Hx. left. symmetry. exact H.
    + apply IH; [exact Hl'|]. intros H. apply Hx. right. exact H.
Qed.

Lemma registered_le (n m : nat) (sub : Sub) :
  (n <= m)%nat -> registered n sub -> registered m sub.
Proof.
  intros Hle ((p & H1 & H2 & H3) & H4). split; [|exact H4].
  exists p. repeat split; try assumption. lia.
Qed.

Lemma registry_ok_le (n m : nat) (subs : list Sub) :
  (n <= m)%nat -> registry_ok n subs -> registry_ok m subs.
Proof.
  intros Hle (H1 & H2 & H3). repeat split; try assumption.
  eapply Forall_impl; [|exact H3]. intros sub. apply registered_le. exact Hle.
Qed.

Lemma hook_is_new (n : nat) (subs : list Sub) :
  Forall (registered n) subs -> ~ In (Some n) (map sub_doneHook subs).
Proof.
  intros H Hin. apply in_map_iff in Hin as (sub & Hh & Hin).
  rewrite Forall_forall in H. destruct (H sub Hin) as ((p & Hp & _ & Hlt) & _).
  rewrite Hp in Hh. injection Hh as ->. lia.
Qed.

Section Sound.

Context {ext : Externals}.

(** A step that leaves the registry, the promise counter and the stored
    continuations alone. *)
Lemma sound_same (st st' : Connection) :
  subscriptions st' = subscriptions st ->
  promises st' = promises st ->
  microtasks st' = microtasks st ->
  timers st' = timers st ->
  reactions st' = reactions st ->
  opening st' = opening st ->
  sound st -> sound st'.
Proof.
  unfold sound, jobs_ok. intros -> -> -> -> -> ->. exact (fun H => H).
Qed.

Lemma sound_enqueue (k : cont) (st : Connection) :
  wf_cont k -> sound st -> sound (enqueue k st).
Proof.
  intros Hk (Hr & Hm & Ht & Hw & Ho). split; [exact Hr|].
  repeat split; try assumption.
  cbn. apply Forall_app. split; [exact Hm|]. constructor; [exact Hk|constructor].
Qed.

Lemma sound_await (x : option nat) (k : cont) (st : Connection) :
  wf_cont k -> sound st -> sound (await x k st).
Proof.
  intros Hk H. unfold await.
  destruct x as [p|]; [destruct (is_settled p st)|]; try (apply sound_enqueue; assumption).
  destruct H as (Hr & Hm & Ht & Hw & Ho). split; [exact Hr|].
  repeat split; try assumption.
  cbn. apply Forall_app. split; [exact Hw|]. constructor; [exact Hk|constructor].
Qed.

Lemma Forall_filter {A : Type} (P : A -> Prop) (f : A -> bool) (l : list A) :
  Forall P l -> Forall P (filter f l).
Proof.
  rewrite !Forall_forall. intros H x Hx. apply filter_In in Hx as [Hx _]. auto.
Qed.

Lemma Forall_map_snd (l : list (nat * cont)) :
  Forall (fun r => wf_cont (snd r)) l -> Forall wf_cont (map snd l).
Proof.
  intros H. apply Forall_forall. intros k Hk.
  apply in_map_iff in Hk as (r & <- & Hr). rewrite Forall_forall in H. auto.
Qed.

Lemma sound_resolve (p : nat) (st : Connection) : sound st -> sound (resolve p st).
Proof.
  intros H. unfold resolve. destruct (is_settled p st); [exact H|].
  destruct H as (Hr & Hm & Ht & Hw & Ho). split; [exact Hr|].
  repeat split; try assumption.
  - cbn. apply Forall_app. split; [exact Hm|].
    apply Forall_map_snd, Forall_filter. exact Hw.
  - cbn. apply Forall_filter. exact Hw.
Qed.

Lemma sound__connect (k : cont) (st : Connection) :
  wf_cont k -> sound st -> sound (_connect k st).
Proof.
  intros Hk H. unfold _connect.
  destruct (connected st); [apply sound_enqueue; assumption|].
  destruct H as (Hr & Hm & Ht & Hw & Ho). split; [exact Hr|].
  repeat split; try assumption.
  cbn. apply Forall_app. split; [exact Ho|]. constructor; [exact Hk|constructor].
Qed.

Lemma sound_sendMessage (payload : value) (st : Connection) :
  sound st -> sound (drop (sendMessage payload st)).
Proof.
  intros H. unfold sendMessage.
  destruct (connected st); cbn [negb drop]; [exact H|].
  destruct (reconnecting st); cbn [negb drop]; [|exact H].
  apply sound_await; [exact I | exact H].
Qed.

Lemma sound__subscribe (i : nat) (st : Connection) :
  sound st -> sound (_subscribe i st).
Proof.
  intros H. unfold _subscribe.
  destruct (nth_error (subscriptions st) i) as [sub|] eqn:En; [|exact H].
  cbn [new_promise]. apply sound_sendMessage.
  destruct H as ((Hid & Hh & Hreg) & Hjobs). split; [|exact Hjobs].
  unfold registry_ok.
  cbn [subscriptions promises set_subscriptions set_promises].
  repeat split.
  - rewrite (map_update_same sub_id i sub); [exact Hid | exact En | reflexivity].
  - apply NoDup_map_update; [exact Hh|]. cbn [sub_doneHook].
    apply hook_is_new. exact Hreg.
  - apply Forall_update.
    + eapply Forall_impl; [|exact Hreg]. intros s. apply registered_le. lia.
    + rewrite Forall_forall in Hreg.
      destruct (Hreg sub (nth_error_In _ _ En)) as (_ & Hkey).
      split; [|exact Hkey]. exists (promises st). repeat split. lia.
Qed.

Lemma sound_subscribe_registered (channel : string) (market : option string)
  (st : Connection) :
  sound st ->
  sound (drop (subscribe_registered (VStr (topic_key market channel)) (VStr channel)
                 (market_value market) st)).
Proof.
  intros H. unfold subscribe_registered.
  destruct (existsb (strict_eq (VStr (topic_key market channel)))
              (map sub_id (subscriptions st))) eqn:Edup; cbn [drop]; [exact H|].
  unfold _subscribe.
  cbn [subscriptions set_subscriptions].
  rewrite (nth_error_middle (subscriptions st) []).
  cbn [new_promise]. apply sound_sendMessage.
  cbn [subscriptions set_subscriptions promises set_promises].
  rewrite (update_middle (subscriptions st) []).
  destruct H as ((Hid & Hh & Hreg) & Hjobs). split; [|exact Hjobs].
  unfold registry_ok.
  cbn [subscriptions set_subscriptions promises set_promises].
  repeat split.
  - rewrite map_app. cbn [map sub_id]. apply NoDup_snoc; [exact Hid|].
    intros Hin. apply includes_string in Hin. congruence.
  - rewrite map_app. cbn [map sub_doneHook]. apply NoDup_snoc; [exact Hh|].
    apply hook_is_new. exact Hreg.
  - apply Forall_app. split.
    + eapply Forall_impl; [|exact Hreg]. intros s. apply registered_le. lia.
    + constructor; [|constructor]. split.
      * exists (promises st). repeat split. lia.
      * cbn [sub_market sub_channel sub_id]. apply toId_strings.
Qed.

Lemma sound_subscribe (channel : string) (market : option string) (st : Connection) :
  sound st -> sound (drop (subscribe channel market st)).
Proof.
  intros H. unfold subscribe. rewrite toId_strings.
  destruct (connected st); cbn [negb]; [apply sound_subscribe_registered; exact H|].
  destruct (reconnecting st); cbn [negb drop]; [|exact H].
  apply sound_await; [|exact H]. exists channel, market. auto.
Qed.

Lemma sound_fold (l : list nat) (st : Connection) :
  sound st -> sound (fold_left (fun st i => _subscribe i st) l st).
Proof.
  revert st. induction l as [|i l IH]; intros st H; cbn [fold_left]; [exact H|].
  apply IH, sound__subscribe, H.
Qed.

Lemma sound_authenticate_connected (t : Z) (st : Connection) :
  sound st -> sound (drop (authenticate_connected t st)).
Proof.
  intros H. unfold authenticate_connected. destruct (secret st); try exact H.
  cbn [drop]. eapply sound_same; [..|apply sound_sendMessage, H]; reflexivity.
Qed.

Lemma sound_authenticate (t : Z) (st : Connection) :
  sound st -> sound (drop (authenticate t st)).
Proof.
  intros H. unfold authenticate. destruct (connected st); cbn [negb].
  - apply sound_authenticate_connected, H.
  - apply sound__connect; [exact I | exact H].
Qed.

Lemma sound_resume (t : Z) (k : cont) (st : Connection) :
  wf_cont k -> sound st -> sound (resume t k st).
Proof.
  intros Hk H.
  destruct k as [payload|id channel market|awaited_by| |hook|hook]; cbn [resume].
  - exact H.
  - destruct Hk as (c & m & -> & -> & ->). apply sound_subscribe_registered, H.
  - assert (H' : sound (if truthy (key st) then drop (authenticate t st) else st)).
    { destruct (truthy (key st)); [apply sound_authenticate, H | exact H]. }
    destruct awaited_by as [k|]; [|exact H'].
    apply sound_enqueue; [exact Hk | exact H'].
  - apply sound_authenticate_connected, H.
  - apply sound__connect; [exact I | exact H].
  - apply sound_fold, sound_resolve, sound_resolve, H.
Qed.

Lemma sound_drain (fuel : nat) (t : Z) (st : Connection) :
  sound st -> sound (drain fuel t st).
Proof.
  revert st. induction fuel as [|fuel IH]; intros st H; cbn [drain].
  - destruct (microtasks st); exact H.
  - destruct (microtasks st) as [|k rest] eqn:Em; [exact H|].
    apply IH. destruct H as (Hr & Hm & Ht & Hw & Ho). rewrite Em in Hm.
    inversion Hm as [|? ? Hk Hrest]; subst.
    apply sound_resume; [exact Hk|].
    split; [exact Hr|]. repeat split; assumption.
Qed.

Lemma sound_terminate (st : Connection) : sound st -> sound (drop (terminate st)).
Proof.
  intros H. unfold terminate.
  destruct (Nat.eqb (ws (effect_ (Console Out "[FTX] TERMINATED WS CON" []) st)) 0);
    exact H.
Qed.

Lemma sound_acknowledge (market channel : value) (subs : list Sub) (st : Connection) :
  sound st -> sound (drop (acknowledge market channel subs st)).
Proof.
  revert st. induction subs as [|sub subs IH]; intros st H; cbn [acknowledge]; [exact H|].
  destruct (strict_eq (sub_market sub) market && strict_eq (sub_channel sub) channel);
    [|apply IH, H].
  destruct (sub_doneHook sub) as [p|]; [|exact H].
  apply IH, sound_resolve, H.
Qed.

Lemma sound_handleWSMessage (t : Z) (data : string) (st : Connection) :
  sound st -> sound (drop (handleWSMessage t data st)).
Proof.
  intros H.
  destruct (in_time_dec t data st) as [[-> Hin] | Hlate].
  { rewrite (handleWSMessage_pong t st Hin). exact H. }
  destruct (JSON_parse data) as [payload|] eqn:Hparse.
  2:{ rewrite (handleWSMessage_unparsed t data st Hlate Hparse). exact H. }
  rewrite (handleWSMessage_parsed t data payload st Hlate Hparse).
  destruct (get payload "type") as [type|]; [|exact H].
  destruct (strict_eq type (VStr "subscribed")).
  { apply (sound_acknowledge _ _ _ (set_lastMessageAt t st)). exact H. }
  destruct (strict_eq type (VStr "update") || strict_eq type (VStr "partial"));
    [|exact H].
  destruct (toId (field payload "market") (field payload "channel")); [|exact H].
  unfold emit. destruct (_ && _); exact H.
Qed.

Lemma sound_onopen (socket : nat) (st : Connection) : sound st -> sound (onopen socket st).
Proof.
  intros H. unfold onopen.
  pose proof (sound_resolve (isReady (set_connected true st)) (set_connected true st) H)
    as (Hr & Hm & Ht & Hw & Ho).
  split; [exact Hr|]. repeat split; try assumption.
  - cbn. apply Forall_app. split; [exact Hm|].
    apply Forall_map_snd, Forall_filter. exact Ho.
  - cbn. apply Forall_filter. exact Ho.
Qed.

Lemma sound_onclose (st : Connection) : sound st -> sound (onclose st).
Proof.
  intros ((Hid & Hh & Hreg) & Hm & Ht & Hw & Ho).
  unfold onclose, reconnect. cbn [new_promise drop]. split.
  - repeat split; try assumption.
    eapply Forall_impl; [|exact Hreg]. intros s. apply registered_le. cbn. lia.
  - repeat split; try assumption.
    cbn. apply Forall_app. split; [exact Ht|]. constructor; [exact I|constructor].
Qed.

Lemma sound_ping (t : Z) (st : Connection) : sound st -> sound (ping t st).
Proof.
  intros H. unfold ping. destruct (stale st).
  - apply (sound_terminate (effect_ _ st)). exact H.
  - apply (sound_sendMessage _ (set_pingAt (At t) st)). exact H.
Qed.

Lemma sound_dispatch (t : Z) (e : event) (st : Connection) :
  sound st -> sound (dispatch t e st).
Proof.
  intros H. destruct e; cbn [dispatch].
  - apply sound_onopen, H.
  - apply sound_handleWSMessage, H.
  - exact H.
  - apply sound_onclose, H.
  - apply sound_ping, H.
  - destruct (timers st) as [|k rest] eqn:Et; [exact H|].
    destruct H as (Hr & Hm & Ht & Hw & Ho). rewrite Et in Ht.
    inversion Ht as [|? ? Hk Hrest]; subst.
    apply sound_resume; [exact Hk|].
    split; [exact Hr|]. repeat split; assumption.
  - apply sound__connect; [exact I | exact H].
  - apply sound_authenticate, H.
  - apply sound_terminate, H.
  - apply sound_sendMessage, H.
  - apply sound_subscribe, H.
  - exact H.
Qed.

Lemma sound_run (fuel : nat) (events : list (Z * event)) (st : Connection) :
  sound st -> sound (run fuel events st).
Proof.
  revert st. induction events as [|[t e] events IH]; intros st H; cbn [run]; [exact H|].
  apply IH. unfold turn. apply sound_drain, sound_dispatch, H.
Qed.

Lemma sound_new (key secret subaccount : value) (endpoint : option string) :
  sound (new_Connection key secret subaccount endpoint).
Proof.
  repeat split; constructor.
Qed.

Lemma strict_eq_eq (a b : value) : strict_eq a b = true -> a = b.
Proof.
  destruct a, b; cbn [strict_eq]; try discriminate; intros H.
  - reflexivity.
  - reflexivity.
  - apply Bool.eqb_prop in H. congruence.
  - apply Z.eqb_eq in H. congruence.
  - apply String.eqb_eq in H. congruence.
Qed.

Lemma same_image {A B : Type} (f : A -> B) (l : list A) (a b : A) :
  NoDup (map f l) -> In a l -> In b l -> f a = f b -> a = b.
Proof.
  induction l as [|x l IH]; cbn [map In]; [tauto|].
  intros Hnd Ha Hb E. inversion Hnd as [|? ? Hx Hl]; subst.
  destruct Ha as [-> | Ha], Hb as [-> | Hb]; auto.
  - exfalso. apply Hx. rewrite E. apply in_map, Hb.
  - exfalso. apply Hx. rewrite <- E. apply in_map, Ha.
Qed.

(** X9.  The registry, whatever happens to a new object: calls, frames,
    ticks, closes and opens in any order, and whatever the fuel.  No key
    is registered twice; every entry has its hook, which resolves its
    [done], a promise no other entry has; the key of an entry is that of
    its market and channel. *)
Theorem registry_is_sound (key secret subaccount : value) (endpoint : option string)
  (fuel : nat) (events : list (Z * event)) :
  let st := run fuel events (new_Connection key secret subaccount endpoint) in
  NoDup (ids st)
  /\ NoDup (map sub_done (subscriptions st))
  /\ (forall sub,
        In sub (subscriptions st) ->
        (exists p, sub_doneHook sub = Some p /\ sub_done sub = Some p
                   /\ (p < promises st)%nat)
        /\ toId (sub_market sub) (sub_channel sub) = Some (sub_id sub)).
Proof.
  cbv zeta.
  destruct (sound_run fuel events _ (sound_new key secret subaccount endpoint))
    as ((Hid & Hh & Hreg) & _).
  split; [exact Hid|]. rewrite Forall_forall in Hreg. split; [|exact Hreg].
  replace (map sub_done
             (subscriptions (run fuel events (new_Connection key secret subaccount endpoint))))
    with (map sub_doneHook
            (subscriptions (run fuel events (new_Connection key secret subaccount endpoint)))).
  - exact Hh.
  - apply map_ext_in. intros sub Hin.
    destruct (Hreg sub Hin) as ((p & -> & -> & _) & _). reflexivity.
Qed.

(** X10.  A [subscribed] frame on any state a new object can reach: the
    handler returns, and the [done] of a registered subscription is
    settled after it exactly when it was before or the frame names the
    market and channel of that subscription.  The frame names at most one
    entry, so no other subscription is acknowledged by it. *)
Theorem subscribed_frame_settles_one (key secret subaccount : value)
  (endpoint : option string) (fuel : nat) (events : list (Z * event))
  (now : Z) (data : string) (payload : value) :
  let st := run fuel events (new_Connection key secret subaccount endpoint) in
  ~ (data = PONG /\ in_time now st) ->
  JSON_parse data = Some payload ->
  get payload "type" = Some (VStr "subscribed") ->
  exists st',
    handleWSMessage now data st = Returned tt st'
    /\ (forall sub p,
          In sub (subscriptions st) ->
          sub_done sub = Some p ->
          (is_settled p st' = true
           <-> is_settled p st = true \/ acknowledged_by payload sub = true))
    /\ (forall a b,
          In a (subscriptions st) ->
          In b (subscriptions st) ->
          acknowledged_by payload a = true ->
          acknowledged_by payload b = true ->
          a = b)
    /\ effects st' = effects st
    /\ subscriptions st' = subscriptions st.
Proof.
  cbv zeta. intros Hlate Hparse Htype.
  destruct (sound_run fuel events _ (sound_new key secret subaccount endpoint))
    as ((Hid & Hh & Hreg) & _).
  remember (run fuel events (new_Connection key secret subaccount endpoint)) as st eqn:E.
  clear E. rewrite Forall_forall in Hreg.
  assert (Hhooks : forall sub, In sub (subscriptions st) -> sub_doneHook sub <> None).
  { intros sub Hin. destruct (Hreg sub Hin) as ((p & -> & _) & _). discriminate. }
  destruct (acknowledged_exactly now data payload st Hlate Hparse Htype Hhooks)
    as (st' & Hret & Hset & He & Hs).
  exists st'. split; [exact Hret|]. split; [|split; [|split; assumption]].
  - intros sub p Hin Hdone. rewrite Hset. split.
    + intros [H | (sub' & Hin' & Hack & Hhook)]; [auto|]. right.
      destruct (Hreg sub Hin) as ((q & Hq & Hq' & _) & _).
      assert (sub' = sub) as ->; [|exact Hack].
      apply (same_image sub_doneHook (subscriptions st)); try assumption. congruence.
    + intros [H | H]; [auto|]. right. exists sub.
      destruct (Hreg sub Hin) as ((q & Hq & Hq' & _) & _).
      repeat split; try assumption. congruence.
  - intros a b Ha Hb Acka Ackb.
    apply (same_image sub_id (subscriptions st)); try assumption.
    destruct (Hreg a Ha) as (_ & Ka). destruct (Hreg b Hb) as (_ & Kb).
    unfold acknowledged_by in Acka, Ackb.
    apply andb_prop in Acka as [A1 A2]. apply andb_prop in Ackb as [B1 B2].
    apply strict_eq_eq in A1, A2, B1, B2.
    rewrite A1, A2 in Ka. rewrite B1, B2 in Kb. congruence.
Qed.

End Sound.

(** ** A reconnection that fails *)

Section Stranded.

Context {ext : Externals}.

(** X11.  The socket of a reconnection closes before it opens, and the
    next reconnection succeeds.  The calls made before the second close
    waited for the [afterReconnect] of the first reconnection, which only
    the open of the socket that failed would resolve: the second
    [reconnect] makes a new promise and leaves that one pending.  So the new
    connection carries the login, the replay and the calls made after the
    second close, and the earlier calls are still waiting, with no job or
    timer left that could wake them. *)
Theorem failed_attempt_strands_calls (st : Connection)
  (lost before after : list (Z * request)) (t1 t2 t3 t4 t5 : Z) (fuel : nat) :
  quiet st ->
  (2 + length before + length after <= fuel)%nat ->
  let socket := S (S (ws st)) in
  let st' := run fuel (((t1, Close) :: calls lost ++ [(t2, Timeout)])
                       ++ (t3, Close) :: calls before
                       ++ (t4, Timeout) :: calls after
                       ++ [(t5, Open socket)]) st in
  sends (effects st')
  = (sends (effects st)
     ++ login_frames socket t5 st
     ++ map (fun sub => (socket, JSON_stringify (subscribe_message sub))) (subscriptions st)
     ++ queued_frames socket (ids st) (map snd (before ++ after)))%list
  /\ reactions st'
     = (reactions st ++ map (fun c => (promises st, continuation (snd c))) lost)%list
  /\ is_settled (promises st) st' = false
  /\ opening st'
     = (opening st
        ++ [(S (ws st), KConnect (Some (KReconnectConnected (promises st))))])%list
  /\ connected st' = true
  /\ microtasks st' = []
  /\ timers st' = [].
Proof.
  intros Hquiet Hfuel. cbv zeta.
  destruct Hquiet as (Hjobs & Htimers & Hopening & Hsettled & Hreactions).
  assert (Hhook : existsb (Nat.eqb (promises st)) (settled st) = false).
  { apply existsb_none. eapply Forall_impl; [|exact Hsettled]. cbn. intros; lia. }
  set (A := during st false false (S (ws st)) (Some (S (ws st))) (subscriptions st)
              (S (S (promises st))) (settled st)
              (reactions st ++ map (fun c => (promises st, continuation (snd c))) lost)
              (opening st
               ++ [(S (ws st), KConnect (Some (KReconnectConnected (promises st))))])
              [] [] (dialing_log st)).
  assert (HA : run fuel ((t1, Close) :: calls lost ++ [(t2, Timeout)]) st = A).
  { rewrite run_event, dispatch_close, onclose_closed by assumption.
    rewrite drain_empty by reflexivity.
    rewrite run_app, queue_during by exact Hhook.
    rewrite run_last, timeout_dials.
    rewrite drain_empty by reflexivity. reflexivity. }
  assert (HqA : quiet A).
  { unfold quiet, A. cbn [microtasks timers opening settled reactions ws promises during].
    split; [reflexivity|]. split; [reflexivity|]. split; [|split].
    - apply Forall_app. split.
      + eapply Forall_impl; [|exact Hopening]. cbn. intros; lia.
      + constructor; [cbn; lia | constructor].
    - eapply Forall_impl; [|exact Hsettled]. cbn. intros; lia.
    - apply Forall_app. split.
      + eapply Forall_impl; [|exact Hreactions]. cbn. intros; lia.
      + apply Forall_forall. intros r Hr. apply in_map_iff in Hr as (c & <- & _).
        cbn. lia. }
  rewrite run_app, HA.
  destruct fuel as [|[|fuel]]; [cbn in Hfuel; lia ..|].
  destruct (reconnect_reaches A before after t3 t4 t5 fuel HqA)
    as (s & Hrun & Hc & Hm & Hws & Hids & He & Ht & Ho & Hr & Hs & Hp).
  change (S (ws A)) with (S (S (ws st))) in Hrun, Hws, He.
  rewrite Hrun.
  assert (Hlen : (length (map snd (before ++ after)) <= fuel)%nat).
  { rewrite length_map, length_app. cbn in Hfuel. lia. }
  destruct (drain_queued t5 (map snd (before ++ after)) fuel s Hc Hm Hlen)
    as (He' & Hm' & Hc').
  destruct (drain_queued_keeps t5 (map snd (before ++ after)) fuel s Hc Hm Hlen)
    as (Ht' & Ho' & Hr' & Hs' & Hws' & Hp').
  repeat match goal with |- _ /\ _ => split end.
  - rewrite He', He, Hws, Hids.
    change (login_frames (S (S (ws st))) t5 A) with (login_frames (S (S (ws st))) t5 st).
    change (subscriptions A) with (subscriptions st).
    change (ids A) with (ids st).
    replace (sends (effects A)) with (sends (effects st)).
    + rewrite <- app_assoc. f_equal. rewrite <- app_assoc. reflexivity.
    + unfold A, dialing_log, closed_log. cbn [effects during].
      rewrite !sends_app. cbn [sends]. rewrite !app_nil_r. reflexivity.
  - rewrite Hr', Hr. reflexivity.
  - unfold is_settled. rewrite Hs', Hs. cbn [existsb settled during A promises].
    rewrite Hhook.
    replace (Nat.eqb (promises st) (S (S (promises st)))) with false
      by (symmetry; apply Nat.eqb_neq; lia).
    replace (Nat.eqb (promises st) (S (S (S (promises st))))) with false
      by (symmetry; apply Nat.eqb_neq; lia).
    reflexivity.
  - rewrite Ho', Ho. reflexivity.
  - exact Hc'.
  - exact Hm'.
  - rewrite Ht'. exact Ht.
Qed.

End Stranded.

(** * Examples *)

Section Examples.

#[local] Existing Instance Sample.externals.

Lemma subscribed_client_quiet : quiet subscribed_client.
Proof.
  unfold quiet. vm_compute. repeat split; repeat constructor.
Qed.

(** C1.  The frame [hello] is no JSON: [JSON.parse] throws, the [catch]
    writes [e.data] of the error it caught ([undefined], not the frame),
    and [payload.type] on the [undefined] payload throws a TypeError out
    of [handleWSMessage]. *)
Theorem bad_json_frame_throws :
  JSON_parse "hello" = None
  /\ handleWSMessage 2000 "hello" connected_client
     = Threw TypeError
         (effect_ (Console Err "ftx send bad json" [VUndefined])
            (set_lastMessageAt 2000 connected_client)).
Proof.
  split; [reflexivity|]. apply bad_json_throws; [|reflexivity].
  intros H. vm_compute in H. discriminate H.
Qed.

Lemma not_connected_fails_witness :
  connected client = false
  /\ reconnecting client = false
  /\ sendMessage (VObj [("op", VStr "ping")]) client = Threw (Error "Not connected.") client
  /\ subscribe "ticker" (Some "BTC-PERP") client = Threw (Error "Not connected.") client.
Proof.
  split; [reflexivity|]. split; [reflexivity|].
  apply not_connected_fails; reflexivity.
Defined.


Lemma authenticate_sends_login_witness :
  secret connected_client = VStr "secret"
  /\ connected connected_client = true
  /\ exists st',
       authenticate 2000 connected_client = Returned tt st'
       /\ effects st'
          = (effects connected_client
             ++ [WsSend 1
                   (JSON_stringify
                      (VObj [("op", VStr "login");
                             ("args",
                              VObj [("key", VStr "key");
                                    ("sign", VStr (hmac_sha256_hex "secret"
                                                     "2000websocket_login"));
                                    ("time", VNum 2000);
                                    ("subaccount", VUndefined)])]))])%list
       /\ authenticated st' = true.
Proof.
  split; [reflexivity|]. split; [reflexivity|].
  destruct (authenticate_sends_login 2000 "secret" connected_client eq_refl)
    as (Hopen & _).
  destruct (Hopen eq_refl) as (st' & H1 & _ & H2 & _ & H3 & _).
  exists st'. split; [exact H1|]. split; [exact H2 | exact H3].
Defined.

(** C6 as stated fails: the heartbeat timer runs from [_connect] on, and
    its tick on the connection that is not open yet finds no late pong,
    records its time and sends no ping frame; the [sendMessage] under it
    throws and nobody catches it. *)
Lemma tick_before_open_counterexample :
  heartbeat dialing_client = Some 1%nat
  /\ connected dialing_client = false
  /\ no_pong_since_ping dialing_client
  /\ ~ late_pong dialing_client
  /\ pingAt (ping 1500 dialing_client) = At 1500
  /\ sends (effects (ping 1500 dialing_client)) = []
  /\ effects (ping 1500 dialing_client)
     = (effects dialing_client ++ [Unhandled (Error "Not connected.")])%list.
Proof.
  split; [reflexivity|]. split; [reflexivity|]. split.
  { intros p q Hp. discriminate Hp. }
  split.
  { intros (p & q & Hp & _). discriminate Hp. }
  split; [reflexivity|]. split; reflexivity.
Qed.

Lemma ping_terminates_iff_late_pong_witness :
  late_pong late_client
  /\ connected (ping 6500 late_client) = false
  /\ sends (effects (ping 6500 late_client)) = sends (effects late_client)
  /\ ~ late_pong pinged_client
  /\ pingAt (ping 6500 pinged_client) = At 6500
  /\ sends (effects (ping 6500 pinged_client))
     = (sends (effects pinged_client)
        ++ [(1%nat, JSON_stringify (VObj [("op", VStr "ping")]))])%list.
Proof.
  assert (Hlate : late_pong late_client).
  { exists 1500, 4000. repeat split; reflexivity. }
  assert (Hnone : ~ late_pong pinged_client).
  { intros (p & q & _ & Hq & _). discriminate Hq. }
  assert (Hpos1 : forall p, pingAt late_client = At p -> 0 < p).
  { intros p Hp. vm_compute in Hp. injection Hp as <-. lia. }
  assert (Hpos2 : forall p, pingAt pinged_client = At p -> 0 < p).
  { intros p Hp. vm_compute in Hp. injection Hp as <-. lia. }
  assert (Hws1 : ws late_client <> 0%nat) by discriminate.
  assert (Hws2 : ws pinged_client <> 0%nat) by discriminate.
  destruct (ping_terminates_iff_late_pong 6500 late_client Hpos1 Hws1)
    as (_ & Hterm & _).
  destruct (ping_terminates_iff_late_pong 6500 pinged_client Hpos2 Hws2)
    as (_ & _ & Hsend & _).
  destruct (Hterm Hlate) as (H1 & _ & _ & H2).
  destruct (Hsend Hnone) as (_ & H3 & _ & _ & H4 & _).
  split; [exact Hlate|]. split; [exact H1|]. split; [exact H2|].
  split; [exact Hnone|]. split; [exact H3 | exact H4].
Defined.

(** C7 as stated fails: the frame whose market is the empty string is
    emitted under [ticker], and not under [::ticker] as market, two
    colons, channel would have it. *)
Lemma empty_market_counterexample :
  JSON_parse empty_market_frame
  = Some (VObj [("type", VStr "update"); ("market", VStr ""); ("channel", VStr "ticker");
                ("data", VObj [("bid", VNum 1)])])
  /\ handleWSMessage 2000 empty_market_frame connected_client
     = Returned tt
         (effect_ (Emit (VStr "ticker") (VObj [("bid", VNum 1)]))
            (set_lastMessageAt 2000 connected_client))
  /\ VStr "ticker" <> VStr (spec_topic_key (Some "") "ticker").
Proof.
  split; [reflexivity|]. split; [reflexivity|]. discriminate.
Qed.

Lemma data_frame_emits_once_witness :
  (exists st',
     handleWSMessage 2000 update_frame connected_client = Returned tt st'
     /\ effects st'
        = (effects connected_client
           ++ [Emit (VStr "BTC-PERP::ticker") (VObj [("bid", VNum 1)])])%list
     /\ settled st' = settled connected_client
     /\ subscriptions st' = subscriptions connected_client)
  /\ (exists st',
        handleWSMessage 2000 error_frame connected_client
        = Threw (ERR_UNHANDLED_ERROR (VObj [("bid", VNum 1)])) st'
        /\ effects st' = effects connected_client)
  /\ (exists st',
        handleWSMessage 2000 error_frame listening_client = Returned tt st'
        /\ effects st'
           = (effects listening_client
              ++ [Emit (VStr "error") (VObj [("bid", VNum 1)])])%list).
Proof.
  assert (Hupdate : update_frame <> PONG).
  { intros H. vm_compute in H. discriminate H. }
  assert (Herror : error_frame <> PONG).
  { intros H. vm_compute in H. discriminate H. }
  assert (Hemit := data_frame_emits_once 2000 update_frame
                     (VObj [("type", VStr "update"); ("market", VStr "BTC-PERP");
                            ("channel", VStr "ticker");
                            ("data", VObj [("bid", VNum 1)])])
                     "update" "ticker" (Some "BTC-PERP") connected_client Hupdate).
  assert (Hthrow := data_frame_emits_once 2000 error_frame
                      (VObj [("type", VStr "update"); ("channel", VStr "error");
                             ("data", VObj [("bid", VNum 1)])])
                      "update" "error" None connected_client Herror).
  assert (Hheard := data_frame_emits_once 2000 error_frame
                      (VObj [("type", VStr "update"); ("channel", VStr "error");
                             ("data", VObj [("bid", VNum 1)])])
                      "update" "error" None listening_client Herror).
  destruct Hemit as (Hemit & _); [reflexivity|reflexivity|left; reflexivity|
                                   reflexivity|reflexivity|].
  destruct Hthrow as (_ & Hthrow); [reflexivity|reflexivity|left; reflexivity|
                                     reflexivity|reflexivity|].
  destruct Hheard as (Hheard & _); [reflexivity|reflexivity|left; reflexivity|
                                     reflexivity|reflexivity|].
  split; [|split].
  - apply Hemit. left. discriminate.
  - destruct (Hthrow eq_refl) as (st' & H1 & H2 & _).
    + intros [].
    + exists st'. split; [exact H1 | exact H2].
  - destruct Hheard as (st' & H1 & H2 & _).
    + right. left. reflexivity.
    + exists st'. split; [exact H1 | exact H2].
Defined.

(** C10 as stated fails for the empty market: the pair of the empty
    market and [ticker] has the key [ticker], the market-less channel
    [::ticker] has the key [::ticker]. *)
Lemma empty_market_keys_differ :
  toId (VStr "") (VStr "ticker") = Some (VStr "ticker")
  /\ toId VUndefined (VStr ("" ++ "::" ++ "ticker")) = Some (VStr "::ticker")
  /\ toId (VStr "") (VStr "ticker") <> toId VUndefined (VStr ("" ++ "::" ++ "ticker")).
Proof.
  split; [reflexivity|]. split; [reflexivity|]. discriminate.
Qed.

Lemma toId_collision_witness :
  toId (VStr "BTC-PERP") (VStr "ticker") = Some (VStr "BTC-PERP::ticker")
  /\ toId VUndefined (VStr "BTC-PERP::ticker") = Some (VStr "BTC-PERP::ticker")
  /\ subscribe "BTC-PERP::ticker" None subscribed_client
     = Returned None
         (effect_ (Console Err "refusing to channel subscribe twice"
                     [VUndefined; VStr "BTC-PERP::ticker"]) subscribed_client).
Proof.
  assert (Hm : "BTC-PERP" <> "") by discriminate.
  destruct (toId_collision "BTC-PERP" "ticker" subscribed_client Hm)
    as (H1 & H2 & _ & H3).
  split; [exact H1|]. split; [exact H2|].
  apply H3; [reflexivity|]. left. reflexivity.
Defined.

(** C3 as stated fails: two calls with different (market, channel) pairs
    and the same key leave one entry in the registry, not two. *)
Lemma colliding_pairs_counterexample :
  ("ticker", Some "BTC-PERP") <> ("BTC-PERP::ticker", None)
  /\ ids (subscribe_all [("ticker", Some "BTC-PERP"); ("BTC-PERP::ticker", None)]
            connected_client)
     = [VStr "BTC-PERP::ticker"]
  /\ length (subscriptions
               (subscribe_all [("ticker", Some "BTC-PERP"); ("BTC-PERP::ticker", None)]
                  connected_client)) = 1%nat.
Proof.
  split; [discriminate|]. split; reflexivity.
Qed.

Lemma subscribe_registers_each_key_once_witness :
  connected connected_client = true
  /\ NoDup (ids connected_client)
  /\ NoDup (ids (subscribe_all
                   [("ticker", Some "BTC-PERP"); ("fills", None);
                    ("ticker", Some "BTC-PERP")] connected_client)).
Proof.
  split; [reflexivity|]. split; [constructor|].
  destruct (subscribe_registers_each_key_once
              [("ticker", Some "BTC-PERP"); ("fills", None); ("ticker", Some "BTC-PERP")]
              connected_client eq_refl (NoDup_nil _)) as (H & _).
  exact H.
Defined.

(** C2 as stated fails: [subscribe] returned promise 1; the replay put
    promise 4 in its place, and the acknowledgment that follows the
    reconnection resolves promise 4 and leaves promise 1 pending. *)
Lemma replay_replaces_signal_counterexample :
  map sub_done (subscriptions ticker_client) = [Some 1%nat]
  /\ map sub_done (subscriptions reconnected_client) = [Some 4%nat]
  /\ map sub_doneHook (subscriptions reconnected_client) = [Some 4%nat]
  /\ is_settled 4 reconnected_client = true
  /\ is_settled 1 reconnected_client = false.
Proof. repeat split. Qed.

Lemma replay_renews_signals_witness :
  connected subscribed_client = true
  /\ sends (effects (replay subscribed_client))
     = (sends (effects subscribed_client)
        ++ map (fun sub => (ws subscribed_client,
                            JSON_stringify (subscribe_message sub)))
             (subscriptions subscribed_client))%list
  /\ subscriptions (replay subscribed_client)
     = renew (promises subscribed_client) (subscriptions subscribed_client).
Proof.
  split; [reflexivity|].
  destruct (replay_renews_signals subscribed_client eq_refl) as (H1 & H2 & _).
  split; [exact H1|exact H2].
Defined.

Lemma reconnect_replays_before_queued_witness :
  quiet subscribed_client
  /\ sends (effects
              (run 5 ((2000, Close)
                      :: calls [(2100, Send (VObj [("op", VStr "orders")]));
                                (2200, Subscribe "trades" (Some "ETH-PERP"))]
                      ++ (2500, Timeout)
                      :: calls [(2550, Subscribe "fills" None)]
                      ++ [(2600, Open 2%nat)]) subscribed_client))
     = (sends (effects subscribed_client)
        ++ login_frames 2 2600 subscribed_client
        ++ map (fun sub => (2%nat, JSON_stringify (subscribe_message sub)))
             (subscriptions subscribed_client)
        ++ queued_frames 2 (ids subscribed_client)
             [Send (VObj [("op", VStr "orders")]);
              Subscribe "trades" (Some "ETH-PERP");
              Subscribe "fills" None])%list.
Proof.
  split; [exact subscribed_client_quiet|].
  assert (Hfuel : (2 + 2 + 1 <= 5)%nat) by lia.
  destruct (reconnect_replays_before_queued subscribed_client
              [(2100, Send (VObj [("op", VStr "orders")]));
               (2200, Subscribe "trades" (Some "ETH-PERP"))]
              [(2550, Subscribe "fills" None)] 2000 2500 2600 5
              subscribed_client_quiet Hfuel) as (H & _).
  exact H.
Defined.


(** ** The further properties on the runs of the examples *)


Lemma subscribed_frame_not_pong (now : Z) (st : Connection) :
  ~ (subscribed_frame = PONG /\ in_time now st).
Proof. intros [H _]. vm_compute in H. discriminate H. Qed.


Lemma pongAt_changes_only_in_time_witness :
  ~ in_time 7000 pinged_client
  /\ pongAt (drop (handleWSMessage 7000 PONG pinged_client)) = pongAt pinged_client
  /\ handleWSMessage 7000 PONG pinged_client
     = Returned tt
         (effect_ (Console Out "[FTX] unhandled WS event" [VObj [("type", VStr "pong")]])
            (set_lastMessageAt 7000 pinged_client)).
Proof.
  assert (Hlate : ~ in_time 7000 pinged_client).
  { unfold in_time. cbn. lia. }
  destruct (pongAt_changes_only_in_time 7000 PONG pinged_client)
    as (_ & _ & _ & H1 & H2).
  split; [exact Hlate|]. split.
  - apply H1. intros [_ H]. exact (Hlate H).
  - apply H2; [exact Hlate | reflexivity].
Defined.

Lemma connect_again_logs_in_again_witness :
  connected connected_client = true
  /\ microtasks connected_client = []
  /\ effects (run 1 [(3000, CallConnect)] connected_client)
     = (effects connected_client ++ login_log 1 3000 connected_client)%list
  /\ sends (login_log 1 3000 connected_client)
     = [(1%nat,
         JSON_stringify
           (login_message (VStr "key") (hmac_sha256_hex "secret" "3000websocket_login")
              3000 VUndefined))].
Proof.
  split; [reflexivity|]. split; [reflexivity|].
  destruct (connect_again_logs_in_again 3000 0 connected_client eq_refl eq_refl)
    as (H & _).
  split; [exact H | reflexivity].
Defined.

Lemma stale_only_between_2_and_5_seconds_witness :
  chronological 0 [(1000, CallConnect); (1100, Open 1%nat); (1500, Tick);
                   (4000, Message PONG)]
  /\ stale (run 4 [(1000, CallConnect); (1100, Open 1%nat); (1500, Tick);
                   (4000, Message PONG)] client) = true
  /\ exists p q,
       pingAt (run 4 [(1000, CallConnect); (1100, Open 1%nat); (1500, Tick);
                      (4000, Message PONG)] client) = At p
       /\ pongAt (run 4 [(1000, CallConnect); (1100, Open 1%nat); (1500, Tick);
                         (4000, Message PONG)] client) = At q
       /\ STALE_TIMEOUT < q - p /\ q - p < 5000.
Proof.
  assert (Hc : chronological 0 [(1000, CallConnect); (1100, Open 1%nat); (1500, Tick);
                                 (4000, Message PONG)]).
  { cbn [chronological]. lia. }
  split; [exact Hc|]. split; [vm_compute; reflexivity|].
  unfold client.
  pose proof (stale_only_between_2_and_5_seconds (VStr "key") (VStr "secret") VUndefined
              None 4 [(1000, CallConnect); (1100, Open 1%nat); (1500, Tick);
                      (4000, Message PONG)] Hc) as H.
  cbv zeta in H. destruct H as (_ & H).
  apply H. vm_compute. reflexivity.
Defined.

Lemma subscribed_frame_settles_one_witness :
  exists st',
    handleWSMessage 1400 subscribed_frame
      (run 4 [(1000, CallConnect); (1100, Open 1%nat);
              (1200, CallSubscribe "ticker" (Some "BTC-PERP"));
              (1300, CallSubscribe "fills" None)] client)
    = Returned tt st'
    /\ is_settled 1 st' = true
    /\ is_settled 2 st' = false.
Proof.
  unfold client.
  pose proof (subscribed_frame_settles_one (VStr "key") (VStr "secret") VUndefined None 4
                [(1000, CallConnect); (1100, Open 1%nat);
                 (1200, CallSubscribe "ticker" (Some "BTC-PERP"));
                 (1300, CallSubscribe "fills" None)]
                1400 subscribed_frame
                (VObj [("type", VStr "subscribed"); ("channel", VStr "ticker");
                       ("market", VStr "BTC-PERP")])) as H.
  cbv zeta in H.
  destruct H as (st' & H1 & H2 & _).
  - apply subscribed_frame_not_pong.
  - vm_compute. reflexivity.
  - vm_compute. reflexivity.
  - exists st'. split; [exact H1|]. split.
    + apply (H2 {| sub_id := VStr "BTC-PERP::ticker"; sub_channel := VStr "ticker";
                   sub_market := VStr "BTC-PERP"; sub_doneHook := Some 1%nat;
                   sub_done := Some 1%nat |} 1%nat).
      * vm_compute. left. reflexivity.
      * reflexivity.
      * right. vm_compute. reflexivity.
    + destruct (H2 {| sub_id := VStr "fills"; sub_channel := VStr "fills";
                      sub_market := VUndefined; sub_doneHook := Some 2%nat;
                      sub_done := Some 2%nat |} 2%nat) as (Honly & _).
      * vm_compute. right. left. reflexivity.
      * reflexivity.
      * destruct (is_settled 2 st'); [|reflexivity].
        destruct (Honly eq_refl) as [F | F]; vm_compute in F; discriminate F.
Defined.

Lemma failed_attempt_strands_calls_witness :
  quiet subscribed_client
  /\ sends (effects
              (run 5 (((2000, Close)
                       :: calls [(2100, Send (VObj [("op", VStr "orders")]))]
                       ++ [(2500, Timeout)])
                      ++ (2600, Close)
                      :: calls [(2700, Subscribe "trades" (Some "ETH-PERP"))]
                      ++ (3100, Timeout)
                      :: calls [(3150, Subscribe "fills" None)]
                      ++ [(3200, Open 3%nat)]) subscribed_client))
     = (sends (effects subscribed_client)
        ++ login_frames 3 3200 subscribed_client
        ++ map (fun sub => (3%nat, JSON_stringify (subscribe_message sub)))
             (subscriptions subscribed_client)
        ++ queued_frames 3 (ids subscribed_client)
             [Subscribe "trades" (Some "ETH-PERP"); Subscribe "fills" None])%list
  /\ reactions
       (run 5 (((2000, Close)
                :: calls [(2100, Send (VObj [("op", VStr "orders")]))]
                ++ [(2500, Timeout)])
               ++ (2600, Close)
               :: calls [(2700, Subscribe "trades" (Some "ETH-PERP"))]
               ++ (3100, Timeout)
               :: calls [(3150, Subscribe "fills" None)]
               ++ [(3200, Open 3%nat)]) subscribed_client)
     = [(promises subscribed_client, KSendMessage (VObj [("op", VStr "orders")]))].
Proof.
  split; [exact subscribed_client_quiet|].
  assert (Hfuel : (2 + length [(2700, Subscribe "trades" (Some "ETH-PERP"))]
                   + length [(3150, Subscribe "fills" None)] <= 5)%nat).
  { cbn. lia. }
  destruct (failed_attempt_strands_calls subscribed_client
              [(2100, Send (VObj [("op", VStr "orders")]))]
              [(2700, Subscribe "trades" (Some "ETH-PERP"))]
              [(3150, Subscribe "fills" None)]
              2000 2500 2600 3100 3200 5 subscribed_client_quiet Hfuel)
    as (H1 & H2 & _).
  split; [exact H1 | exact H2].
Defined.
End Examples.
